(** * The video ingestion pipeline of the file-storage server

    A shallow embedding of [handler_upload_video.go] (prober, aspect
    classifier, remuxer, object-key builder, upload handler), of the
    signed-URL variant of the same handler and of the two thumbnail
    handlers that write into the assets directory, followed by the
    properties of these functions.

    Go values are modelled as follows: [int] as [Z], [float64] as Rocq's
    primitive binary64 floats, [string] as [string], [[]byte] as
    [list byte], [*string] as [option string].  The handlers run in a
    small state-and-early-return monad over a [World] that holds the local
    file system, the object store, the metadata store and a chronological
    log of the effects performed.  The outcome of everything the handlers
    cannot decide themselves (library parsers, the operating system, the
    external tools, the stores, the random source) is read from an [Env].
    Closing a file changes nothing the statements speak of and is left
    out. *)

From Stdlib Require Import ZArith Floats Uint63 QArith Qabs Ascii String Lia.
From Stdlib.Strings Require Import Byte.
From stdpp Require Import gmap strings list.

Local Open Scope Z_scope.

(** ** Results of fallible functions *)

Inductive result (E A : Type) : Type :=
| Ok (a : A)
| Err (e : E).
Arguments Ok {E A} a.
Arguments Err {E A} e.

(** ** Library functions used by the handlers *)

Module strings_pkg.

(** [strings.Index(s, sep)] for a one-character separator, returned as the
    text before and after the first occurrence. *)
Fixpoint Index (s : string) (sep : ascii) : option (string * string) :=
  match s with
  | EmptyString => None
  | String c rest =>
      if Ascii.eqb c sep then Some (EmptyString, rest)
      else match Index rest sep with
           | Some (before, after) => Some (String c before, after)
           | None => None
           end
  end.

(** The loop of [genSplit]: at most [n] cuts, the remainder is the last
    element. *)
Fixpoint splitLoop (sep : ascii) (n : nat) (s : string) : list string :=
  match n with
  | O => [s]
  | S n' =>
      match Index s sep with
      | None => [s]
      | Some (before, after) => before :: splitLoop sep n' after
      end
  end.

(** [strings.SplitN(s, sep, n)] for a one-character separator. *)
Definition SplitN (s : string) (sep : ascii) (n : Z) : list string :=
  if n =? 0 then []
  else if n <? 0 then splitLoop sep (String.length s) s
  else
    let n := Z.min n (Z.of_nat (String.length s) + 1) in
    splitLoop sep (Z.to_nat (n - 1)) s.

End strings_pkg.

Module base64.

(** The alphabet of [base64.URLEncoding]. *)
Definition encodeURL : list ascii :=
  list_ascii_of_string
    "ABCDEFGHIJKLMNOPQRSTUVWXYZabcdefghijklmnopqrstuvwxyz0123456789-_".

(** [enc.encode[v]] *)
Definition encode (v : Z) : ascii := nth (Z.to_nat v) encodeURL "A"%char.

Definition uint (b : byte) : Z := Z.of_N (Byte.to_N b).

(** [val>>k & 0x3F] *)
Definition sextet (val k : Z) : Z := Z.land (Z.shiftr val k) 63.

(** [Encoding.Encode] of [RawURLEncoding] (no padding character): whole
    groups of three bytes give four characters, one remaining byte gives
    two, two remaining bytes give three. *)
Fixpoint Encode (src : list byte) : list ascii :=
  match src with
  | b0 :: b1 :: b2 :: rest =>
      let val := Z.lor (Z.lor (Z.shiftl (uint b0) 16) (Z.shiftl (uint b1) 8))
                       (uint b2) in
      encode (sextet val 18) :: encode (sextet val 12)
        :: encode (sextet val 6) :: encode (sextet val 0) :: Encode rest
  | [b0; b1] =>
      let val := Z.lor (Z.shiftl (uint b0) 16) (Z.shiftl (uint b1) 8) in
      [encode (sextet val 18); encode (sextet val 12); encode (sextet val 6)]
  | [b0] =>
      let val := Z.shiftl (uint b0) 16 in
      [encode (sextet val 18); encode (sextet val 12)]
  | [] => []
  end.

(** [base64.RawURLEncoding.EncodeToString] *)
Definition EncodeToString (src : list byte) : string :=
  string_of_list_ascii (Encode src).

End base64.

(** ** Media prober and aspect classifier *)

(** One element of [ffprobeOutput.Streams]. *)
Record Stream : Type := mkStream {
  CodecType : string;
  Width : Z;
  Height : Z
}.

(** What running [ffprobe] and unmarshalling its standard output gives:
    the process fails, the output is not the expected JSON, or a list of
    streams is obtained. *)
Inductive FfprobeRun : Type :=
| ProbeExitError
| ProbeBadJSON
| ProbeStreams (streams : list Stream).

Inductive ProbeError : Type :=
| FfprobeFailed
| ParseFailed
| NoVideoStream.

(** [float64(n)] for an [int]: round to nearest, ties to even.  The
    magnitude [2^63] of the least [int] does not fit the 63-bit integers
    the conversion goes through and is given directly. *)
Definition float64_of_int (n : Z) : float :=
  if n =? - 9223372036854775808 then PrimFloat.opp 0x1p63%float
  else if n <? 0 then PrimFloat.opp (PrimFloat.of_uint63 (Uint63.of_Z (- n)))
  else PrimFloat.of_uint63 (Uint63.of_Z n).

Definition tolerance : float := (5 / 100)%float.
Definition landscapeTarget : float := (16 / 9)%float.
Definition portraitTarget : float := (9 / 16)%float.

(** [math.Abs(ratio-target) <= target*tolerance] *)
Definition withinBand (ratio target : float) : bool :=
  PrimFloat.leb (PrimFloat.abs (ratio - target)) (target * tolerance).

(** The loop "find first video stream": [width] and [height] start at
    zero and take the values of the first stream whose codec type is
    ["video"]; the loop stops there. *)
Fixpoint firstVideo (streams : list Stream) : Z * Z :=
  match streams with
  | [] => (0, 0)
  | stream :: rest =>
      if String.eqb (CodecType stream) "video"
      then (Width stream, Height stream)
      else firstVideo rest
  end.

(** The [switch] at the end of [getVideoAspectRatio]. *)
Definition aspectOf (width height : Z) : string :=
  let ratio := (float64_of_int width / float64_of_int height)%float in
  if withinBand ratio landscapeTarget then "landscape"
  else if withinBand ratio portraitTarget then "portrait"
  else "other".

(** [getVideoAspectRatio], from the outcome of the [ffprobe] run on. *)
Definition getVideoAspectRatio (run : FfprobeRun) : result ProbeError string :=
  match run with
  | ProbeExitError => Err FfprobeFailed
  | ProbeBadJSON => Err ParseFailed
  | ProbeStreams streams =>
      let '(width, height) := firstVideo streams in
      if (width =? 0) || (height =? 0) then Err NoVideoStream
      else Ok (aspectOf width height)
  end.

(** The bands of the classifier over the exact rationals, for comparison
    with the floating-point tests of [aspectOf]: [|w/h - n/d| <= (n/d) * 5%]. *)
Definition withinBandExact (width height n d : Z) : Prop :=
  (Qabs (inject_Z width / inject_Z height - inject_Z n / inject_Z d)
   <= (inject_Z n / inject_Z d) * (5 # 100))%Q.


(** ** The world the handlers act on *)

(** [uuid.UUID]: sixteen bytes, read as a number. *)
Abbreviation UUID := N.

(** Modelled from the spec: the record type [database.Video] is declared
    outside the files at hand; it is the VideoRecord of the data model
    ({id, ownerPrincipalID, videoLocator}) with the thumbnail reference the
    thumbnail handlers set and the descriptive columns, which no handler
    touches. *)
Record Video : Type := mkVideo {
  ID : UUID;
  UserID : UUID;
  ThumbnailURL : option string;
  VideoURL : option string;
  Title : string;
  Description : string
}.

Definition setVideoURL (video : Video) (url : option string) : Video :=
  {| ID := ID video; UserID := UserID video;
     ThumbnailURL := ThumbnailURL video; VideoURL := url;
     Title := Title video; Description := Description video |}.

Definition setThumbnailURL (video : Video) (url : option string) : Video :=
  {| ID := ID video; UserID := UserID video;
     ThumbnailURL := url; VideoURL := VideoURL video;
     Title := Title video; Description := Description video |}.

(** An object of the durable store. *)
Record Object : Type := mkObject {
  objBody : list byte;
  objContentType : string
}.

(** The effects a handler performs, in the order of the log. *)
Inductive Event : Type :=
| EvReadBody (n : Z)
| EvDbGet (id : UUID)
| EvDbUpdate (id : UUID) (ok : bool)
| EvCreateTemp (path : string)
| EvCreate (path : string)
| EvWrite (path : string) (n : nat)
| EvRemove (path : string)
| EvExec (prog : string) (args : list string)
| EvRand (n : nat)
| EvS3Put (bucket key : string) (ok : bool)
| EvPresign (bucket key : string).

Record World : Type := mkWorld {
  fs : gmap string (list byte);
  s3 : gmap (string * string) Object;
  db : gmap N Video;
  log : list Event
}.

Definition setFs (w : World) (f : gmap string (list byte)) : World :=
  {| fs := f; s3 := s3 w; db := db w; log := log w |}.
Definition setS3 (w : World) (o : gmap (string * string) Object) : World :=
  {| fs := fs w; s3 := o; db := db w; log := log w |}.
Definition setDb (w : World) (d : gmap N Video) : World :=
  {| fs := fs w; s3 := s3 w; db := d; log := log w |}.
Definition emit (e : Event) (w : World) : World :=
  {| fs := fs w; s3 := s3 w; db := db w; log := log w ++ [e] |}.

(** What [ffmpeg] did: its exit status and what it left at the output
    path ([None]: nothing was written there). *)
Record FfmpegRun : Type := mkFfmpegRun {
  ffmpegExitOk : bool;
  ffmpegOutput : option (list byte)
}.

(** Everything the handlers take from their surroundings.  Each call is
    made at most once per request, so one outcome per call is enough. *)
Record Env : Type := mkEnv {
  uuid_Parse : string -> option UUID;
  uuid_String : UUID -> string;
  auth_GetBearerToken : list (string * string) -> option string;
  auth_ValidateJWT : string -> string -> option UUID;
  mime_ParseMediaType : string -> option string;
  filepath_Join : string -> string -> string;
  db_GetVideo_fails : bool;
  db_UpdateVideo_fails : bool;
  os_CreateTemp_name : option string;
  os_Create_fails : bool;
  io_Copy_stops : option nat;
  tempFile_Seek_fails : bool;
  os_Open_fails : bool;
  processedFile_Seek_fails : bool;
  rand_Read : option (nat -> byte);
  ffprobe : gmap string (list byte) -> string -> FfprobeRun;
  ffmpeg : gmap string (list byte) -> string -> string -> FfmpegRun;
  s3_PutObject_fails : bool;
  s3_Presign : string -> string -> Z -> option string
}.

(** [apiConfig], without the handles of the two stores (these are the
    [db] and [s3] of the world). *)
Record apiConfig : Type := mkConfig {
  jwtSecret : string;
  s3Bucket : string;
  s3Region : string;
  assetsRoot : string;
  port : string
}.

(** One file part of a multipart form: the [Content-Type] of its header
    and its bytes. *)
Record FormFile : Type := mkFormFile {
  partContentType : string;
  partData : list byte
}.

(** An inbound request: the path value, the headers, the length of the
    body and the file parts the body holds when it is a well-formed
    multipart message ([None] otherwise). *)
Record Request : Type := mkRequest {
  pathVideoID : string;
  reqHeader : list (string * string);
  bodyLen : Z;
  bodyForm : option (list (string * FormFile))
}.

Inductive Payload : Type :=
| ErrorMessage (msg : string)
| VideoJSON (video : Video).

Record Response : Type := mkResponse {
  status : Z;
  payload : Payload
}.

Definition StatusOK : Z := 200.
Definition StatusBadRequest : Z := 400.
Definition StatusUnauthorized : Z := 401.
Definition StatusNotFound : Z := 404.
Definition StatusUnsupportedMediaType : Z := 415.
Definition StatusInternalServerError : Z := 500.

(** ** Handlers as computations with early return *)

(** A step either continues with a value or has written the response and
    returned from the handler. *)
Inductive Step (A : Type) : Type :=
| Continue (a : A)
| Return (resp : Response).
Arguments Continue {A} a.
Arguments Return {A} resp.

Definition M (A : Type) : Type := World -> Step A * World.

Definition ret {A} (a : A) : M A := fun w => (Continue a, w).

Definition bind {A B} (m : M A) (f : A -> M B) : M B :=
  fun w =>
    match m w with
    | (Continue a, w') => f a w'
    | (Return resp, w') => (Return resp, w')
    end.

#[global] Instance M_ret : MRet M := @ret.
#[global] Instance M_bind : MBind M := fun A B f m => bind m f.

(** [respondWithError(w, code, msg, err); return] *)
Definition respondWithError {A} (code : Z) (msg : string) : M A :=
  fun w => (Return {| status := code; payload := ErrorMessage msg |}, w).

(** [respondWithJSON(w, code, video)] as the last statement. *)
Definition respondWithJSON {A} (code : Z) (video : Video) : M A :=
  fun w => (Return {| status := code; payload := VideoJSON video |}, w).

(** Continue with the value of an option, or respond with an error. *)
Definition orFail {A} (o : option A) (code : Z) (msg : string) : M A :=
  match o with
  | Some a => ret a
  | None => respondWithError code msg
  end.

(** Respond with an error when the test holds. *)
Definition failWhen (b : bool) (code : Z) (msg : string) : M unit :=
  if b then respondWithError code msg else ret tt.

Definition effect (f : World -> World) : M unit := fun w => (Continue tt, f w).

(** [defer cleanup] followed by the rest of the function body: the
    cleanup runs when the body is left, whichever way. *)
Definition defer {A} (cleanup : World -> World) (body : M A) : M A :=
  fun w => let '(r, w') := body w in (r, cleanup w').

(** Running a handler: the response and the world it leaves. *)
Definition run (h : M Response) (w : World) : Response * World :=
  match h w with
  | (Continue resp, w') => (resp, w')
  | (Return resp, w') => (resp, w')
  end.

(** ** The collaborators: request body, stores, operating system, tools *)

(** [r.Body = http.MaxBytesReader(w, r.Body, n)]: reads of the body stop
    with an error once [n] bytes have been delivered. *)
Record BoundedRequest : Type := mkBounded {
  inner : Request;
  byteCeiling : option Z
}.

Definition unbounded (r : Request) : BoundedRequest :=
  {| inner := r; byteCeiling := None |}.

Definition MaxBytesReader (r : Request) (n : Z) : BoundedRequest :=
  {| inner := r; byteCeiling := Some n |}.

(** [r.ParseMultipartForm(maxMemory)]: the parser reads the body through
    the ceiling, if there is one; [maxMemory] only decides where the parser
    keeps the parts it has read.  The log records how many bytes of the
    body were delivered. *)
Definition ParseMultipartForm (r : BoundedRequest)
  : M (option (list (string * FormFile))) :=
  fun w =>
    match byteCeiling r with
    | Some n =>
        if n <? bodyLen (inner r)
        then (Continue None, emit (EvReadBody n) w)
        else (Continue (bodyForm (inner r)),
              emit (EvReadBody (bodyLen (inner r))) w)
    | None =>
        (Continue (bodyForm (inner r)), emit (EvReadBody (bodyLen (inner r))) w)
    end.

(** [r.FormFile(key)]: the first file part stored under the key. *)
Fixpoint FormFileOf (form : list (string * FormFile)) (key : string)
  : option FormFile :=
  match form with
  | [] => None
  | (k, part) :: rest =>
      if String.eqb k key then Some part else FormFileOf rest key
  end.

Inductive DbError : Type :=
| ErrNoRows
| DbFailure.

(** Modelled from the spec: [getRecord(id) -> VideoRecord | NotFound] of
    the metadata store, which may also fail as a service. *)
Definition GetVideo (env : Env) (id : UUID) : M (result DbError Video) :=
  fun w =>
    let w' := emit (EvDbGet id) w in
    if db_GetVideo_fails env then (Continue (Err DbFailure), w')
    else match db w !! id with
         | Some video => (Continue (Ok video), w')
         | None => (Continue (Err ErrNoRows), w')
         end.

(** Modelled from the spec: [updateRecord(VideoRecord) -> ok | error] of
    the metadata store; a failed update leaves the stored record as it
    was. *)
Definition UpdateVideo (env : Env) (video : Video) : M bool :=
  fun w =>
    if db_UpdateVideo_fails env
    then (Continue false, emit (EvDbUpdate (ID video) false) w)
    else (Continue true,
          emit (EvDbUpdate (ID video) true)
               (setDb w (<[ID video := video]> (db w)))).

(** [os.CreateTemp]: a new, empty file under a name no file has yet. *)
Definition CreateTemp (env : Env) : M (option string) :=
  fun w =>
    match os_CreateTemp_name env with
    | None => (Continue None, w)
    | Some path =>
        match fs w !! path with
        | Some _ => (Continue None, w)
        | None =>
            (Continue (Some path),
             emit (EvCreateTemp path) (setFs w (<[path := []]> (fs w))))
        end
    end.

(** [os.Create]: the file is created, or truncated when it exists. *)
Definition Create (env : Env) (path : string) : M bool :=
  fun w =>
    if os_Create_fails env then (Continue false, w)
    else (Continue true, emit (EvCreate path) (setFs w (<[path := []]> (fs w)))).

(** [io.Copy(dst, file)] into the file at [path]: all the bytes, or the
    bytes written before the copy stopped with an error. *)
Definition Copy (env : Env) (path : string) (data : list byte) : M bool :=
  fun w =>
    match io_Copy_stops env with
    | None =>
        (Continue true,
         emit (EvWrite path (length data)) (setFs w (<[path := data]> (fs w))))
    | Some n =>
        (Continue false,
         emit (EvWrite path (length (take n data)))
              (setFs w (<[path := take n data]> (fs w))))
    end.

(** [os.Remove(path)] with its error dropped, as the deferred calls do:
    removing a file that is not there changes nothing. *)
Definition Remove (path : string) (w : World) : World :=
  emit (EvRemove path) (setFs w (delete path (fs w))).

(** [os.Open(path)] followed by reading the file from its start. *)
Definition Open (env : Env) (path : string) : M (option (list byte)) :=
  fun w =>
    if os_Open_fails env then (Continue None, w)
    else (Continue (fs w !! path), w).

(** Reading an open file from its start to its end. *)
Definition contents (path : string) : M (list byte) :=
  fun w => (Continue (default [] (fs w !! path)), w).

(** [rand.Read(b)] for a buffer of [n] bytes. *)
Definition randRead (env : Env) (n : nat) : M (option (list byte)) :=
  fun w =>
    match rand_Read env with
    | None => (Continue None, emit (EvRand n) w)
    | Some stream => (Continue (Some (map stream (seq 0 n))), emit (EvRand n) w)
    end.

(** The [ffprobe] command of [getVideoAspectRatio]; it reads the file and
    writes nothing. *)
Definition runFfprobe (env : Env) (filePath : string) : M FfprobeRun :=
  fun w =>
    (Continue (ffprobe env (fs w) filePath),
     emit (EvExec "ffprobe"
             ["-v"; "error"; "-print_format"; "json"; "-show_streams"; filePath])
          w).

(** [processVideoForFastStart]: [ffmpeg] writes to the input path suffixed
    with [.processing]; the path is returned when the command succeeds. *)
Definition processVideoForFastStart (env : Env) (filePath : string)
  : M (option string) :=
  fun w =>
    let outputPath := filePath +:+ ".processing" in
    let r := ffmpeg env (fs w) filePath outputPath in
    let files :=
      match ffmpegOutput r with
      | Some bytes => <[outputPath := bytes]> (fs w)
      | None => fs w
      end in
    let w' :=
      emit (EvExec "ffmpeg"
              ["-i"; filePath; "-c"; "copy"; "-movflags"; "faststart";
               "-f"; "mp4"; outputPath])
           (setFs w files) in
    if ffmpegExitOk r then (Continue (Some outputPath), w')
    else (Continue None, w').

(** Modelled from the spec: [put(bucket, key, bytes, contentType) -> ok |
    error] of the object store, a single atomic put. *)
Definition PutObject (env : Env) (bucket key : string) (body : list byte)
  (contentType : string) : M bool :=
  fun w =>
    if s3_PutObject_fails env
    then (Continue false, emit (EvS3Put bucket key false) w)
    else (Continue true,
          emit (EvS3Put bucket key true)
               (setS3 w (<[(bucket, key) :=
                            {| objBody := body; objContentType := contentType |}]>
                         (s3 w)))).

(** The checks every handler starts with or repeats after its own work:
    the record is loaded, and the caller must be its owner. *)
Definition loadVideo (env : Env) (videoID : UUID) : M Video :=
  got ← GetVideo env videoID;
  match got with
  | Ok video => ret video
  | Err ErrNoRows => respondWithError StatusNotFound "Video not found"
  | Err DbFailure => respondWithError StatusInternalServerError "Database error"
  end.

Definition verifyOwnership (env : Env) (video : Video) (userID : UUID) : M unit :=
  userUUID ← orFail (uuid_Parse env (uuid_String env userID))
                    StatusUnauthorized "Invalid user ID";
  failWhen (negb (N.eqb (UserID video) userUUID))
           StatusUnauthorized "Unauthorized access".

(** ** The upload handler of [handler_upload_video.go] *)

(** [1<<30], the upload limit. *)
Definition uploadLimit : Z := Z.shiftl 1 30.

(** The object key: ["%s/%s.mp4"] of the aspect and the encoded random
    bytes. *)
Definition objectKeyOf (aspect : string) (randomBytes : list byte) : string :=
  let baseName := base64.EncodeToString randomBytes in
  aspect +:+ "/" +:+ baseName +:+ ".mp4".

(** ["https://%s.s3.%s.amazonaws.com/%s"] *)
Definition publicURL (cfg : apiConfig) (objectKey : string) : string :=
  "https://" +:+ s3Bucket cfg +:+ ".s3." +:+ s3Region cfg
    +:+ ".amazonaws.com/" +:+ objectKey.

Definition handlerUploadVideo (cfg : apiConfig) (env : Env) (r : Request)
  : M Response :=
  let body := MaxBytesReader r uploadLimit in
  videoID ← orFail (uuid_Parse env (pathVideoID r))
                   StatusBadRequest "Invalid video ID";
  token ← orFail (auth_GetBearerToken env (reqHeader r))
                 StatusUnauthorized "Couldn't find JWT";
  userID ← orFail (auth_ValidateJWT env token (jwtSecret cfg))
                  StatusUnauthorized "Invalid JWT";
  video ← loadVideo env videoID;
  verifyOwnership env video userID;;
  parsed ← ParseMultipartForm body;
  form ← orFail parsed StatusBadRequest "Error parsing form";
  file ← orFail (FormFileOf form "video") StatusBadRequest "Missing video file";
  parsedMediaType ← orFail (mime_ParseMediaType env (partContentType file))
                           StatusBadRequest "Invalid Content-Type";
  failWhen (negb (String.eqb parsedMediaType "video/mp4"))
           StatusUnsupportedMediaType "Only MP4 videos are allowed";;
  created ← CreateTemp env;
  tempFile ← orFail created StatusInternalServerError "Failed to create temp file";
  defer (Remove tempFile) (
    copied ← Copy env tempFile (partData file);
    failWhen (negb copied) StatusInternalServerError "Failed to save video";;
    failWhen (tempFile_Seek_fails env)
             StatusInternalServerError "Failed to process video";;
    probed ← runFfprobe env tempFile;
    aspect ← match getVideoAspectRatio probed with
             | Ok aspect => mret aspect
             | Err _ =>
                 respondWithError StatusInternalServerError "Failed to analyze video"
             end;
    processed ← processVideoForFastStart env tempFile;
    processedPath ← orFail processed
                           StatusInternalServerError "Video processing failed";
    defer (Remove processedPath) (
      opened ← Open env processedPath;
      processedFile ← orFail opened StatusInternalServerError
                             "Failed to open processed video";
      failWhen (processedFile_Seek_fails env)
               StatusInternalServerError "Failed to read processed video";;
      drawn ← randRead env 32;
      randomBytes ← orFail drawn StatusInternalServerError
                           "Failed to generate filename";
      let objectKey := objectKeyOf aspect randomBytes in
      stored ← PutObject env (s3Bucket cfg) objectKey processedFile "video/mp4";
      failWhen (negb stored) StatusInternalServerError "Failed to upload to S3";;
      let video := setVideoURL video (Some (publicURL cfg objectKey)) in
      updated ← UpdateVideo env video;
      failWhen (negb updated) StatusInternalServerError "Failed to update video";;
      respondWithJSON StatusOK video)).

(** ** The variant that stores a locator and answers with a signed URL *)

Module Signed.

Inductive SignError : Type :=
| InvalidFormat
| PresignFailed.

(** [15*time.Minute], in nanoseconds. *)
Definition expireTime : Z := 15 * (60 * 1000000000).

(** The locator written to the record: ["%s,%s"] of bucket and key. *)
Definition locatorOf (bucket key : string) : string :=
  bucket +:+ "," +:+ key.

Definition generatePresignedURL (env : Env) (bucket key : string)
  (expire : Z) : M (result SignError string) :=
  fun w =>
    match s3_Presign env bucket key expire with
    | Some url => (Continue (Ok url), emit (EvPresign bucket key) w)
    | None => (Continue (Err PresignFailed), emit (EvPresign bucket key) w)
    end.

(** [dbVideoToSignedVideo]: the video and the error, as the Go function
    returns them. *)
Definition dbVideoToSignedVideo (env : Env) (video : Video)
  : M (Video * option SignError) :=
  match VideoURL video with
  | None => mret (setVideoURL video None, None)
  | Some url =>
      if String.eqb url "" then mret (setVideoURL video None, None)
      else
        match strings_pkg.SplitN url "," 2 with
        | [bucket; key] =>
            signed ← generatePresignedURL env bucket key expireTime;
            match signed with
            | Ok url => mret (setVideoURL video (Some url), None)
            | Err e => mret (video, Some e)
            end
        | _ => mret (video, Some InvalidFormat)
        end
  end.

Definition handlerUploadVideo (cfg : apiConfig) (env : Env) (r : Request)
  : M Response :=
  let body := MaxBytesReader r uploadLimit in
  videoID ← orFail (uuid_Parse env (pathVideoID r))
                   StatusBadRequest "Invalid video ID";
  token ← orFail (auth_GetBearerToken env (reqHeader r))
                 StatusUnauthorized "Couldn't find JWT";
  userID ← orFail (auth_ValidateJWT env token (jwtSecret cfg))
                  StatusUnauthorized "Invalid JWT";
  video ← loadVideo env videoID;
  verifyOwnership env video userID;;
  parsed ← ParseMultipartForm body;
  form ← orFail parsed StatusBadRequest "Error parsing form";
  file ← orFail (FormFileOf form "video") StatusBadRequest "Missing video file";
  parsedMediaType ← orFail (mime_ParseMediaType env (partContentType file))
                           StatusBadRequest "Invalid Content-Type";
  failWhen (negb (String.eqb parsedMediaType "video/mp4"))
           StatusUnsupportedMediaType "Only MP4 videos are allowed";;
  created ← CreateTemp env;
  tempFile ← orFail created StatusInternalServerError "Failed to create temp file";
  defer (Remove tempFile) (
    copied ← Copy env tempFile (partData file);
    failWhen (negb copied) StatusInternalServerError "Failed to save video";;
    failWhen (tempFile_Seek_fails env)
             StatusInternalServerError "Failed to process video";;
    probed ← runFfprobe env tempFile;
    aspect ← match getVideoAspectRatio probed with
             | Ok aspect => mret aspect
             | Err _ =>
                 respondWithError StatusInternalServerError "Failed to analyze video"
             end;
    processed ← processVideoForFastStart env tempFile;
    processedPath ← orFail processed
                           StatusInternalServerError "Video processing failed";
    defer (Remove processedPath) (
      opened ← Open env processedPath;
      processedFile ← orFail opened StatusInternalServerError
                             "Failed to open processed video";
      failWhen (processedFile_Seek_fails env)
               StatusInternalServerError "Failed to read processed video";;
      drawn ← randRead env 32;
      randomBytes ← orFail drawn StatusInternalServerError
                           "Failed to generate filename";
      let objectKey := objectKeyOf aspect randomBytes in
      stored ← PutObject env (s3Bucket cfg) objectKey processedFile "video/mp4";
      failWhen (negb stored) StatusInternalServerError "Failed to upload to S3";;
      let video := setVideoURL video (Some (locatorOf (s3Bucket cfg) objectKey)) in
      updated ← UpdateVideo env video;
      failWhen (negb updated) StatusInternalServerError "Failed to update video";;
      '(signedVideo, err) ← dbVideoToSignedVideo env video;
      match err with
      | Some _ =>
          respondWithError StatusInternalServerError "Failed to generate URL"
      | None => respondWithJSON StatusOK signedVideo
      end)).

End Signed.

(** ** The earlier variant with a flat key and no remux step *)

Module Flat.

Definition objectKeyOf (randomBytes : list byte) : string :=
  base64.EncodeToString randomBytes +:+ ".mp4".

Definition handlerUploadVideo (cfg : apiConfig) (env : Env) (r : Request)
  : M Response :=
  let body := MaxBytesReader r uploadLimit in
  videoID ← orFail (uuid_Parse env (pathVideoID r))
                   StatusBadRequest "Invalid video ID";
  token ← orFail (auth_GetBearerToken env (reqHeader r))
                 StatusUnauthorized "Couldn't find JWT";
  userID ← orFail (auth_ValidateJWT env token (jwtSecret cfg))
                  StatusUnauthorized "Invalid JWT";
  video ← loadVideo env videoID;
  verifyOwnership env video userID;;
  parsed ← ParseMultipartForm body;
  form ← orFail parsed StatusBadRequest "Error parsing form";
  file ← orFail (FormFileOf form "video") StatusBadRequest "Missing video file";
  parsedMediaType ← orFail (mime_ParseMediaType env (partContentType file))
                           StatusBadRequest "Invalid Content-Type";
  failWhen (negb (String.eqb parsedMediaType "video/mp4"))
           StatusUnsupportedMediaType "Only MP4 videos are allowed";;
  created ← CreateTemp env;
  tempFile ← orFail created StatusInternalServerError "Failed to create temp file";
  defer (Remove tempFile) (
    copied ← Copy env tempFile (partData file);
    failWhen (negb copied) StatusInternalServerError "Failed to save video";;
    failWhen (tempFile_Seek_fails env)
             StatusInternalServerError "Failed to process video";;
    drawn ← randRead env 32;
    randomBytes ← orFail drawn StatusInternalServerError
                         "Failed to generate filename";
    let objectKey := objectKeyOf randomBytes in
    staged ← contents tempFile;
    stored ← PutObject env (s3Bucket cfg) objectKey staged "video/mp4";
    failWhen (negb stored) StatusInternalServerError "Failed to upload to S3";;
    let video := setVideoURL video (Some (publicURL cfg objectKey)) in
    updated ← UpdateVideo env video;
    failWhen (negb updated) StatusInternalServerError "Failed to update video";;
    respondWithJSON StatusOK video).

End Flat.

(** ** The thumbnail handlers that write into the assets directory *)

(** The handler that names the file after the video. *)
Module ThumbnailByID.

Definition getExtensionFromMIME (mimeType : string) : option string :=
  if String.eqb mimeType "image/jpeg" then Some ".jpg"
  else if String.eqb mimeType "image/png" then Some ".png"
  else if String.eqb mimeType "image/gif" then Some ".gif"
  else if String.eqb mimeType "image/webp" then Some ".webp"
  else None.

Definition thumbnailURLOf (cfg : apiConfig) (filename : string) : string :=
  "http://localhost:" +:+ port cfg +:+ "/assets/" +:+ filename.

Definition handlerUploadThumbnail (cfg : apiConfig) (env : Env) (r : Request)
  : M Response :=
  videoID ← orFail (uuid_Parse env (pathVideoID r))
                   StatusBadRequest "Invalid video ID";
  token ← orFail (auth_GetBearerToken env (reqHeader r))
                 StatusUnauthorized "Couldn't find JWT";
  userID ← orFail (auth_ValidateJWT env token (jwtSecret cfg))
                  StatusUnauthorized "Invalid JWT";
  parsed ← ParseMultipartForm (unbounded r);
  form ← orFail parsed StatusBadRequest "Error parsing form";
  file ← orFail (FormFileOf form "thumbnail")
                StatusBadRequest "Missing thumbnail file";
  let mediaType := partContentType file in
  ext ← orFail (getExtensionFromMIME mediaType)
               StatusUnsupportedMediaType "Unsupported file type";
  let filename := uuid_String env videoID +:+ ext in
  let filePath := filepath_Join env (assetsRoot cfg) filename in
  created ← Create env filePath;
  failWhen (negb created) StatusInternalServerError "Failed to create file";;
  copied ← Copy env filePath (partData file);
  failWhen (negb copied) StatusInternalServerError "Failed to save file";;
  video ← loadVideo env videoID;
  verifyOwnership env video userID;;
  let video := setThumbnailURL video (Some (thumbnailURLOf cfg filename)) in
  updated ← UpdateVideo env video;
  failWhen (negb updated) StatusInternalServerError "Failed to update video";;
  respondWithJSON StatusOK video.

End ThumbnailByID.

(** The handler that names the file with random bytes. *)
Module ThumbnailRandom.

Definition extensionOf (parsedMediaType : string) : string :=
  if String.eqb parsedMediaType "image/jpeg" then ".jpg"
  else if String.eqb parsedMediaType "image/png" then ".png"
  else "".

Definition handlerUploadThumbnail (cfg : apiConfig) (env : Env) (r : Request)
  : M Response :=
  videoID ← orFail (uuid_Parse env (pathVideoID r))
                   StatusBadRequest "Invalid video ID";
  token ← orFail (auth_GetBearerToken env (reqHeader r))
                 StatusUnauthorized "Couldn't find JWT";
  userID ← orFail (auth_ValidateJWT env token (jwtSecret cfg))
                  StatusUnauthorized "Invalid JWT";
  parsed ← ParseMultipartForm (unbounded r);
  form ← orFail parsed StatusBadRequest "Error parsing form";
  file ← orFail (FormFileOf form "thumbnail")
                StatusBadRequest "Missing thumbnail file";
  parsedMediaType ← orFail (mime_ParseMediaType env (partContentType file))
                           StatusBadRequest "Invalid Content-Type header";
  failWhen (negb (String.eqb parsedMediaType "image/jpeg")
            && negb (String.eqb parsedMediaType "image/png"))
           StatusUnsupportedMediaType "Only JPEG and PNG images are allowed";;
  let ext := extensionOf parsedMediaType in
  drawn ← randRead env 32;
  randomBytes ← orFail drawn StatusInternalServerError
                       "Failed to generate filename";
  let filename := base64.EncodeToString randomBytes +:+ ext in
  let filePath := filepath_Join env (assetsRoot cfg) filename in
  created ← Create env filePath;
  failWhen (negb created) StatusInternalServerError "Failed to create file";;
  copied ← Copy env filePath (partData file);
  failWhen (negb copied) StatusInternalServerError "Failed to save file";;
  video ← loadVideo env videoID;
  verifyOwnership env video userID;;
  let video :=
    setThumbnailURL video (Some (ThumbnailByID.thumbnailURLOf cfg filename)) in
  updated ← UpdateVideo env video;
  failWhen (negb updated) StatusInternalServerError "Failed to update video";;
  respondWithJSON StatusOK video.

End ThumbnailRandom.

(** ** The thumbnail handler that keeps the upload in memory *)

Module ThumbnailInMemory.

(** An entry of the global map [videoThumbnails]. *)
Record thumbnail : Type := mkThumbnail {
  data : list byte;
  mediaType : string
}.

(** ["http://localhost:%s/api/thumbnails/%s"] of the port and the id. *)
Definition thumbnailURLOf (cfg : apiConfig) (env : Env) (videoID : UUID)
  : string :=
  "http://localhost:" +:+ port cfg +:+ "/api/thumbnails/"
    +:+ uuid_String env videoID.

(** The handler up to the statement that stores the thumbnail: the id,
    the record and the file part it continues with.  [readAllFails] is the
    outcome of [io.ReadAll]. *)
Definition beforeStore (cfg : apiConfig) (env : Env) (readAllFails : bool)
  (r : Request) : M (UUID * Video * FormFile) :=
  videoID ← orFail (uuid_Parse env (pathVideoID r))
                   StatusBadRequest "Invalid video ID";
  token ← orFail (auth_GetBearerToken env (reqHeader r))
                 StatusUnauthorized "Couldn't find JWT";
  userID ← orFail (auth_ValidateJWT env token (jwtSecret cfg))
                  StatusUnauthorized "Invalid JWT";
  parsed ← ParseMultipartForm (unbounded r);
  form ← orFail parsed StatusBadRequest "Error parsing form";
  file ← orFail (FormFileOf form "thumbnail")
                StatusBadRequest "Missing thumbnail file";
  failWhen readAllFails StatusInternalServerError "Error reading file";;
  video ← loadVideo env videoID;
  verifyOwnership env video userID;;
  mret (videoID, video, file).

(** The rest of the handler, once the thumbnail is stored. *)
Definition afterStore (cfg : apiConfig) (env : Env) (videoID : UUID)
  (video : Video) : M Response :=
  let video :=
    setThumbnailURL video (Some (thumbnailURLOf cfg env videoID)) in
  updated ← UpdateVideo env video;
  failWhen (negb updated) StatusInternalServerError "Failed to update video";;
  respondWithJSON StatusOK video.

(** [handlerUploadThumbnail], with the global map passed in and out. *)
Definition handlerUploadThumbnail (cfg : apiConfig) (env : Env)
  (readAllFails : bool) (r : Request)
  (videoThumbnails : gmap N thumbnail) (w : World)
  : Response * gmap N thumbnail * World :=
  match beforeStore cfg env readAllFails r w with
  | (Return resp, w') => (resp, videoThumbnails, w')
  | (Continue (videoID, video, file), w') =>
      let videoThumbnails :=
        <[videoID := {| data := partData file;
                        mediaType := partContentType file |}]>
          videoThumbnails in
      let '(resp, w'') := run (afterStore cfg env videoID video) w' in
      (resp, videoThumbnails, w'')
  end.

End ThumbnailInMemory.

(** ** Vocabulary of the statements *)

Definition isVideo (s : Stream) : Prop := CodecType s = "video"%string.

(** The three values [getVideoAspectRatio] can return. *)
Definition aspectClasses : list string := ["landscape"; "portrait"; "other"]%string.

Definition noComma (s : string) : Prop := ¬ In ","%char (list_ascii_of_string s).

(** The request passes every check the upload handler makes before it
    reads the body: the path value is an id, the credential is valid, the
    record is found and the caller owns it. *)
Definition passesEarlyChecks (cfg : apiConfig) (env : Env) (r : Request)
  (w : World) (videoID : UUID) : Prop :=
  ∃ token userID video,
    uuid_Parse env (pathVideoID r) = Some videoID
    ∧ auth_GetBearerToken env (reqHeader r) = Some token
    ∧ auth_ValidateJWT env token (jwtSecret cfg) = Some userID
    ∧ db_GetVideo_fails env = false
    ∧ db w !! videoID = Some video
    ∧ uuid_Parse env (uuid_String env userID) = Some (UserID video).

Definition errorResponse (code : Z) (msg : string) : Response :=
  {| status := code; payload := ErrorMessage msg |}.

(** The events [evs] of a thumbnail run show the file at [path] created
    and written with all of [data] right before the record [videoID] is
    looked up, no lookup having been made earlier; [after] is what follows
    the lookup. *)
Definition writtenBeforeLoad (evs : list Event) (path : string)
  (data : list byte) (videoID : UUID) (after : list Event) : Prop :=
  ∃ before,
    evs = before ++ [EvCreate path; EvWrite path (length data); EvDbGet videoID]
                 ++ after
    ∧ Forall (fun e => ∀ id, e ≠ EvDbGet id) before.

(** The caller behind the request's token is not the owner of the video. *)
Definition callerIsNotOwner (cfg : apiConfig) (env : Env) (r : Request)
  (video : Video) : Prop :=
  ∃ token userID caller,
    auth_GetBearerToken env (reqHeader r) = Some token
    ∧ auth_ValidateJWT env token (jwtSecret cfg) = Some userID
    ∧ uuid_Parse env (uuid_String env userID) = Some caller
    ∧ caller ≠ UserID video.

(** The two thumbnail handlers that store the upload as a file. *)
Definition thumbnailHandlers : list (apiConfig -> Env -> Request -> M Response) :=
  [ThumbnailByID.handlerUploadThumbnail; ThumbnailRandom.handlerUploadThumbnail].

(** The three versions of the video upload handler, the two of them that
    remux, and all the handlers that run in [M]. *)
Definition videoHandlers : list (apiConfig -> Env -> Request -> M Response) :=
  [handlerUploadVideo; Signed.handlerUploadVideo; Flat.handlerUploadVideo].

Definition remuxingHandlers : list (apiConfig -> Env -> Request -> M Response) :=
  [handlerUploadVideo; Signed.handlerUploadVideo].

Definition allHandlers : list (apiConfig -> Env -> Request -> M Response) :=
  videoHandlers ++ thumbnailHandlers.

(** The request carries no token, or one that does not validate. *)
Definition unauthenticated (cfg : apiConfig) (env : Env) (r : Request) : Prop :=
  auth_GetBearerToken env (reqHeader r) = None
  ∨ ∃ token,
      auth_GetBearerToken env (reqHeader r) = Some token
      ∧ auth_ValidateJWT env token (jwtSecret cfg) = None.

(** The extensions the two file-writing thumbnail handlers give. *)
Definition imageExtensions : list string := [".jpg"; ".png"; ".gif"; ".webp"]%string.

(** ** A small deployment to run the handlers on

    One video (id 1) owned by user 7; the caller, the store failures and
    the behaviour of [ffmpeg] vary. *)

Definition scenario (caller : N) (getFails putFails updateFails : bool)
  (remux : option (list byte) -> FfmpegRun) : Env :=
  {| uuid_Parse := fun s =>
       if String.eqb s "v1" then Some 1%N
       else if String.eqb s "u7" then Some 7%N
       else if String.eqb s "u8" then Some 8%N
       else None;
     uuid_String := fun u =>
       if N.eqb u 7 then "u7" else if N.eqb u 8 then "u8" else "v1";
     auth_GetBearerToken := fun _ => Some "token"%string;
     auth_ValidateJWT := fun _ _ => Some caller;
     mime_ParseMediaType := fun s => Some s;
     filepath_Join := fun dir name => dir +:+ "/" +:+ name;
     db_GetVideo_fails := getFails;
     db_UpdateVideo_fails := updateFails;
     os_CreateTemp_name := Some "/tmp/tubely-upload-1.mp4"%string;
     os_Create_fails := false;
     io_Copy_stops := None;
     tempFile_Seek_fails := false;
     os_Open_fails := false;
     processedFile_Seek_fails := false;
     rand_Read := Some (fun i => Byte.x2a);
     ffprobe := fun _ _ =>
       ProbeStreams [mkStream "audio" 0 0; mkStream "video" 1280 720];
     ffmpeg := fun files input _ => remux (files !! input);
     s3_PutObject_fails := putFails;
     s3_Presign := fun bucket key _ => Some ("signed:" +:+ bucket +:+ "/" +:+ key) |}.

Definition remuxOk (input : option (list byte)) : FfmpegRun :=
  {| ffmpegExitOk := true; ffmpegOutput := input |}.

(** [ffmpeg] gives up after it has created its output file. *)
Definition remuxAborts (input : option (list byte)) : FfmpegRun :=
  {| ffmpegExitOk := false; ffmpegOutput := Some [] |}.

Definition sampleConfig : apiConfig :=
  {| jwtSecret := "secret"; s3Bucket := "tubely"; s3Region := "eu-west-1";
     assetsRoot := "/assets"; port := "8091" |}.

Definition sampleVideo : Video :=
  {| ID := 1; UserID := 7; ThumbnailURL := None; VideoURL := None;
     Title := "clip"; Description := "" |}.

Definition sampleWorld : World :=
  {| fs := ∅; s3 := ∅; db := {[ 1%N := sampleVideo ]}; log := [] |}.

Definition sampleRequest (field contentType : string) (len : Z) : Request :=
  {| pathVideoID := "v1"; reqHeader := [("Authorization", "Bearer token")]%string;
     bodyLen := len;
     bodyForm := Some [(field, {| partContentType := contentType;
                                  partData := [Byte.x00; Byte.x01] |})] |}.

(** A request like [sampleRequest] with the bytes of the upload given. *)
Definition sampleUpload (field contentType : string) (bytes : list byte)
  : Request :=
  {| pathVideoID := "v1"; reqHeader := [("Authorization", "Bearer token")]%string;
     bodyLen := Z.of_nat (length bytes);
     bodyForm := Some [(field, {| partContentType := contentType;
                                  partData := bytes |})] |}.

(** The same surroundings, for a request that carries no token. *)
Definition withoutToken (env : Env) : Env :=
  {| uuid_Parse := uuid_Parse env;
     uuid_String := uuid_String env;
     auth_GetBearerToken := fun _ => None;
     auth_ValidateJWT := auth_ValidateJWT env;
     mime_ParseMediaType := mime_ParseMediaType env;
     filepath_Join := filepath_Join env;
     db_GetVideo_fails := db_GetVideo_fails env;
     db_UpdateVideo_fails := db_UpdateVideo_fails env;
     os_CreateTemp_name := os_CreateTemp_name env;
     os_Create_fails := os_Create_fails env;
     io_Copy_stops := io_Copy_stops env;
     tempFile_Seek_fails := tempFile_Seek_fails env;
     os_Open_fails := os_Open_fails env;
     processedFile_Seek_fails := processedFile_Seek_fails env;
     rand_Read := rand_Read env;
     ffprobe := ffprobe env;
     ffmpeg := ffmpeg env;
     s3_PutObject_fails := s3_PutObject_fails env;
     s3_Presign := s3_Presign env |}.

(** The same surroundings, for an upload in which [ffprobe] finds an audio
    stream only. *)
Definition withAudioOnly (env : Env) : Env :=
  {| uuid_Parse := uuid_Parse env;
     uuid_String := uuid_String env;
     auth_GetBearerToken := auth_GetBearerToken env;
     auth_ValidateJWT := auth_ValidateJWT env;
     mime_ParseMediaType := mime_ParseMediaType env;
     filepath_Join := filepath_Join env;
     db_GetVideo_fails := db_GetVideo_fails env;
     db_UpdateVideo_fails := db_UpdateVideo_fails env;
     os_CreateTemp_name := os_CreateTemp_name env;
     os_Create_fails := os_Create_fails env;
     io_Copy_stops := io_Copy_stops env;
     tempFile_Seek_fails := tempFile_Seek_fails env;
     os_Open_fails := os_Open_fails env;
     processedFile_Seek_fails := processedFile_Seek_fails env;
     rand_Read := rand_Read env;
     ffprobe := fun _ _ => ProbeStreams [mkStream "audio" 0 0];
     ffmpeg := ffmpeg env;
     s3_PutObject_fails := s3_PutObject_fails env;
     s3_Presign := s3_Presign env |}.

(** The same surroundings, with an object store that signs nothing. *)
Definition withoutPresign (env : Env) : Env :=
  {| uuid_Parse := uuid_Parse env;
     uuid_String := uuid_String env;
     auth_GetBearerToken := auth_GetBearerToken env;
     auth_ValidateJWT := auth_ValidateJWT env;
     mime_ParseMediaType := mime_ParseMediaType env;
     filepath_Join := filepath_Join env;
     db_GetVideo_fails := db_GetVideo_fails env;
     db_UpdateVideo_fails := db_UpdateVideo_fails env;
     os_CreateTemp_name := os_CreateTemp_name env;
     os_Create_fails := os_Create_fails env;
     io_Copy_stops := io_Copy_stops env;
     tempFile_Seek_fails := tempFile_Seek_fails env;
     os_Open_fails := os_Open_fails env;
     processedFile_Seek_fails := processedFile_Seek_fails env;
     rand_Read := rand_Read env;
     ffprobe := ffprobe env;
     ffmpeg := ffmpeg env;
     s3_PutObject_fails := s3_PutObject_fails env;
     s3_Presign := fun _ _ _ => None |}.

(** * Properties *)

(** ** Prober and classifier *)

Lemma firstVideo_skip pre rest :
  Forall (fun s => ¬ isVideo s) pre ->
  firstVideo (pre ++ rest) = firstVideo rest.
Proof.
  induction 1 as [|s pre Hs _ IH]; [reflexivity|].
  cbn [app firstVideo].
  destruct (String.eqb_spec (CodecType s) "video") as [E|_]; [|exact IH].
  contradiction.
Qed.

Lemma firstVideo_none streams :
  Forall (fun s => ¬ isVideo s) streams -> firstVideo streams = (0, 0).
Proof.
  intros H. rewrite <- (app_nil_r streams). now rewrite firstVideo_skip.
Qed.

Lemma firstVideo_at pre v post :
  Forall (fun s => ¬ isVideo s) pre -> isVideo v ->
  firstVideo (pre ++ v :: post) = (Width v, Height v).
Proof.
  intros Hpre Hv. rewrite firstVideo_skip by assumption.
  cbn [firstVideo]. unfold isVideo in Hv. rewrite Hv. reflexivity.
Qed.

(** Every stream list either has no video stream or splits at its first
    one. *)
Lemma first_video_split streams :
  Forall (fun s => ¬ isVideo s) streams
  ∨ ∃ pre v post, streams = pre ++ v :: post
                  ∧ Forall (fun s => ¬ isVideo s) pre ∧ isVideo v.
Proof.
  induction streams as [|s streams IH]; [left; constructor|].
  destruct (String.eqb_spec (CodecType s) "video") as [E|N].
  - right. exists [], s, streams. repeat split; [constructor|exact E].
  - destruct IH as [IH|(pre & v & post & -> & Hpre & Hv)].
    + left. constructor; assumption.
    + right. exists (s :: pre), v, post. repeat split; [|exact Hv].
      constructor; assumption.
Qed.

(** C4, as amended: the prober takes the geometry of the first stream
    whose codec type is "video", whatever the streams before it (none of
    them a video stream) and after it are, and it fails with the
    no-video-stream error exactly when the list has no video stream or the
    first one has width 0 or height 0. *)
Theorem prober_selects_first_video_stream (streams : list Stream) :
  (∀ pre v post,
      streams = pre ++ v :: post ->
      Forall (fun s => ¬ isVideo s) pre -> isVideo v ->
      firstVideo streams = (Width v, Height v))
  ∧ (getVideoAspectRatio (ProbeStreams streams) = Err NoVideoStream
     <-> Forall (fun s => ¬ isVideo s) streams
         ∨ ∃ pre v post,
             streams = pre ++ v :: post
             ∧ Forall (fun s => ¬ isVideo s) pre ∧ isVideo v
             ∧ (Width v = 0 ∨ Height v = 0)).
Proof.
  split.
  - intros pre v post -> Hpre Hv. now apply firstVideo_at.
  - cbn [getVideoAspectRatio].
    destruct (first_video_split streams)
      as [Hnone|(pre & v & post & -> & Hpre & Hv)].
    + rewrite firstVideo_none by assumption. cbn. split; [now left|reflexivity].
    + rewrite firstVideo_at by assumption. split.
      * intros H. right. exists pre, v, post. repeat split; try assumption.
        destruct (Z.eqb_spec (Width v) 0); [now left|].
        destruct (Z.eqb_spec (Height v) 0); [now right|]. discriminate H.
      * intros [Hnone|(pre' & v' & post' & E & Hpre' & Hv' & Hz)].
        -- exfalso. apply Forall_app in Hnone as [_ Hn].
           inversion Hn; subst. contradiction.
        -- pose proof (firstVideo_at pre v post Hpre Hv) as F1.
           rewrite E in F1. rewrite firstVideo_at in F1 by assumption.
           injection F1 as Hw Hh. rewrite <- Hw, <- Hh.
           destruct Hz as [-> | ->]; cbn; [reflexivity|].
           now rewrite orb_true_r.
Qed.

(** C4, as stated, fails: a cover-art stream without geometry in front of
    the real video stream makes the prober fail although a later stream
    has positive width and height. *)
Lemma prober_no_video_claim_counterexample :
  ¬ (∀ streams : list Stream,
        getVideoAspectRatio (ProbeStreams streams) = Err NoVideoStream
        <-> ¬ ∃ s, s ∈ streams ∧ 0 < Width s ∧ 0 < Height s).
Proof.
  intros H.
  destruct (H [mkStream "video" 0 0; mkStream "video" 1920 1080]) as [H1 _].
  apply H1; [reflexivity|].
  exists (mkStream "video" 1920 1080). split; [|cbn; lia].
  apply list_elem_of_In. right. left. reflexivity.
Qed.

Lemma getVideoAspectRatio_geometry streams width height :
  firstVideo streams = (width, height) -> width ≠ 0 -> height ≠ 0 ->
  getVideoAspectRatio (ProbeStreams streams) = Ok (aspectOf width height).
Proof.
  intros E Hw Hh. cbn [getVideoAspectRatio]. rewrite E.
  destruct (Z.eqb_spec width 0); [contradiction|].
  destruct (Z.eqb_spec height 0); [contradiction|]. reflexivity.
Qed.



(** ** The URL-safe encoding of the random bytes *)

Lemma list_ind3 {A} (P : list A -> Prop) :
  P [] -> (∀ a, P [a]) -> (∀ a b, P [a; b]) ->
  (∀ a b c l, P l -> P (a :: b :: c :: l)) -> ∀ l, P l.
Proof.
  intros H0 H1 H2 H3. fix IH 1.
  intros [|a [|b [|c l]]]; [exact H0|apply H1|apply H2|apply H3, IH].
Qed.

Lemma uint_range b : 0 <= base64.uint b < 256.
Proof. unfold base64.uint. pose proof (Byte.to_N_bounded b). lia. Qed.

Lemma uint_inj a b : base64.uint a = base64.uint b -> a = b.
Proof.
  unfold base64.uint. intros H. apply N2Z.inj in H.
  pose proof (Byte.of_to_N a) as Ha. rewrite H, Byte.of_to_N in Ha. congruence.
Qed.

Lemma lor_shiftl_add hi lo n :
  0 <= n -> 0 <= lo < 2 ^ n -> Z.lor (Z.shiftl hi n) lo = hi * 2 ^ n + lo.
Proof.
  intros Hn Hlo. rewrite <- Z.shiftl_mul_pow2 by assumption.
  symmetry. apply Z.add_nocarry_lor. apply Z.bits_inj'. intros m Hm.
  rewrite Z.land_spec, Z.bits_0.
  destruct (Z.lt_ge_cases m n) as [Hlt|Hge].
  - rewrite Z.shiftl_spec_low by assumption. reflexivity.
  - destruct (Z.eq_dec lo 0) as [->|Hne]; [rewrite Z.bits_0; apply andb_false_r|].
    rewrite (Z.bits_above_log2 lo m), andb_false_r; [reflexivity|lia|].
    apply Z.log2_lt_pow2; [lia|].
    eapply Z.lt_le_trans; [apply Hlo|]. apply Z.pow_le_mono_r; lia.
Qed.

Lemma sextet_div val k : 0 <= k -> base64.sextet val k = (val / 2 ^ k) mod 64.
Proof.
  intros Hk. unfold base64.sextet. rewrite Z.shiftr_div_pow2 by assumption.
  change 63 with (Z.ones 6). rewrite Z.land_ones by lia. reflexivity.
Qed.

Lemma sextet_range val k : 0 <= k -> 0 <= base64.sextet val k < 64.
Proof. intros Hk. rewrite sextet_div by assumption. apply Z.mod_pos_bound. lia. Qed.

(** The three packings of [Encode] as sums. *)
Lemma pack3 b0 b1 b2 :
  Z.lor (Z.lor (Z.shiftl (base64.uint b0) 16) (Z.shiftl (base64.uint b1) 8))
        (base64.uint b2)
  = 65536 * base64.uint b0 + 256 * base64.uint b1 + base64.uint b2.
Proof.
  pose proof (uint_range b0). pose proof (uint_range b1).
  pose proof (uint_range b2).
  rewrite (Z.shiftl_mul_pow2 (base64.uint b1)) by lia.
  rewrite (lor_shiftl_add _ (base64.uint b1 * 2 ^ 8) 16) by lia.
  replace (base64.uint b0 * 2 ^ 16 + base64.uint b1 * 2 ^ 8)
    with (Z.shiftl (256 * base64.uint b0 + base64.uint b1) 8)
    by (rewrite Z.shiftl_mul_pow2; lia).
  rewrite lor_shiftl_add by lia. lia.
Qed.

Lemma pack2 b0 b1 :
  Z.lor (Z.shiftl (base64.uint b0) 16) (Z.shiftl (base64.uint b1) 8)
  = 65536 * base64.uint b0 + 256 * base64.uint b1.
Proof.
  pose proof (uint_range b0). pose proof (uint_range b1).
  rewrite (Z.shiftl_mul_pow2 (base64.uint b1)) by lia.
  rewrite lor_shiftl_add by lia. lia.
Qed.

Lemma pack1 b0 : Z.shiftl (base64.uint b0) 16 = 65536 * base64.uint b0.
Proof. rewrite Z.shiftl_mul_pow2 by lia. lia. Qed.

Lemma encodeURL_NoDup : List.NoDup base64.encodeURL.
Proof.
  apply NoDup_ListNoDup.
  apply (bool_decide_unpack (NoDup base64.encodeURL)). vm_compute. exact I.
Qed.

Lemma encode_inj i j :
  0 <= i < 64 -> 0 <= j < 64 -> base64.encode i = base64.encode j -> i = j.
Proof.
  intros Hi Hj E. unfold base64.encode in E.
  apply (proj1 (NoDup_nth base64.encodeURL "A"%char) encodeURL_NoDup) in E.
  - lia.
  - change (length base64.encodeURL) with 64%nat. lia.
  - change (length base64.encodeURL) with 64%nat. lia.
Qed.

Lemma encode_sextet_inj v v' k :
  0 <= k -> base64.encode (base64.sextet v k) = base64.encode (base64.sextet v' k) ->
  (v / 2 ^ k) mod 64 = (v' / 2 ^ k) mod 64.
Proof.
  intros Hk E. apply encode_inj in E; try (apply sextet_range; assumption).
  now rewrite !sextet_div in E by assumption.
Qed.

Lemma encode_in_alphabet v : base64.encode v ∈ base64.encodeURL.
Proof.
  unfold base64.encode. apply list_elem_of_In.
  destruct (Nat.lt_ge_cases (Z.to_nat v) (length base64.encodeURL)) as [H|H].
  - now apply nth_In.
  - rewrite nth_overflow by assumption. vm_compute. left. reflexivity.
Qed.

(** Every character of an encoding is a letter, a digit, [-] or [_]. *)
Lemma Encode_alphabet src : Forall (fun c => c ∈ base64.encodeURL) (base64.Encode src).
Proof.
  induction src as [| | |b0 b1 b2 rest IH] using list_ind3; cbn [base64.Encode];
    repeat (constructor; [apply encode_in_alphabet|]); [constructor..|exact IH].
Qed.

(** The encoding has [ceil(8n/6)] characters. *)
Lemma Encode_length src :
  length (base64.Encode src) = ((length src * 8 + 5) / 6)%nat.
Proof.
  induction src as [| | |b0 b1 b2 rest IH] using list_ind3;
    [reflexivity..|].
  cbn [base64.Encode length]. rewrite IH.
  replace (S (S (S (length rest))) * 8 + 5)%nat
    with ((length rest * 8 + 5) + 4 * 6)%nat by lia.
  rewrite Nat.div_add by lia. lia.
Qed.

(** Inputs of equal length with equal encodings are equal. *)
Lemma Encode_inj src : ∀ src',
  length src = length src' -> base64.Encode src = base64.Encode src' -> src = src'.
Proof.
  induction src as [|a0|a0 a1|a0 a1 a2 rest IH] using list_ind3;
    intros [|b0 [|b1 [|b2 rest']]] Hlen E; try discriminate Hlen;
    try reflexivity; cbn [base64.Encode] in E.
  - injection E as E0 E1. rewrite !pack1 in *.
    apply encode_sextet_inj in E0, E1; try lia.
    pose proof (uint_range a0). pose proof (uint_range b0).
    change (2 ^ 18) with 262144 in *. change (2 ^ 12) with 4096 in *.
    f_equal. apply uint_inj. Z.div_mod_to_equations. lia.
  - injection E as E0 E1 E2. rewrite !pack2 in *.
    apply encode_sextet_inj in E0, E1, E2; try lia.
    pose proof (uint_range a0). pose proof (uint_range b0).
    pose proof (uint_range a1). pose proof (uint_range b1).
    change (2 ^ 18) with 262144 in *. change (2 ^ 12) with 4096 in *.
    change (2 ^ 6) with 64 in *.
    assert (base64.uint a0 = base64.uint b0 ∧ base64.uint a1 = base64.uint b1)
      as [Ha Hb] by (Z.div_mod_to_equations; lia).
    apply uint_inj in Ha, Hb. now subst.
  - injection E as E0 E1 E2 E3 Erest. rewrite !pack3 in *.
    apply encode_sextet_inj in E0, E1, E2, E3; try lia.
    pose proof (uint_range a0). pose proof (uint_range b0).
    pose proof (uint_range a1). pose proof (uint_range b1).
    pose proof (uint_range a2). pose proof (uint_range b2).
    change (2 ^ 18) with 262144 in *. change (2 ^ 12) with 4096 in *.
    change (2 ^ 6) with 64 in *. change (2 ^ 0) with 1 in *.
    assert (base64.uint a0 = base64.uint b0 ∧ base64.uint a1 = base64.uint b1
            ∧ base64.uint a2 = base64.uint b2)
      as (Ha & Hb & Hc) by (Z.div_mod_to_equations; lia).
    apply uint_inj in Ha, Hb, Hc. subst. f_equal. f_equal. f_equal.
    apply IH; [|assumption]. cbn in Hlen. lia.
Qed.

(** ** Strings *)

Lemma length_append s t :
  String.length (s +:+ t) = (String.length s + String.length t)%nat.
Proof.
  induction s as [|c s IH]; [reflexivity|].
  change (String c s +:+ t) with (String c (s +:+ t)).
  cbn [String.length Nat.add]. f_equal. exact IH.
Qed.

Lemma length_string_of_list l :
  String.length (string_of_list_ascii l) = length l.
Proof. induction l as [|c l IH]; [reflexivity|]. cbn. f_equal. exact IH. Qed.

Lemma list_of_append s t :
  list_ascii_of_string (s +:+ t)
  = list_ascii_of_string s ++ list_ascii_of_string t.
Proof.
  induction s as [|c s IH]; [reflexivity|].
  change (String c s +:+ t) with (String c (s +:+ t)).
  cbn [list_ascii_of_string app]. f_equal. exact IH.
Qed.

Lemma list_ascii_inj s t :
  list_ascii_of_string s = list_ascii_of_string t -> s = t.
Proof.
  intros E. rewrite <- (string_of_list_ascii_of_string s),
    <- (string_of_list_ascii_of_string t). now rewrite E.
Qed.

Lemma append_inj_l s t u : s +:+ u = t +:+ u -> s = t.
Proof.
  intros E. apply list_ascii_inj. apply (f_equal list_ascii_of_string) in E.
  rewrite !list_of_append in E. now apply app_inv_tail in E.
Qed.

Lemma string_of_list_inj l l' :
  string_of_list_ascii l = string_of_list_ascii l' -> l = l'.
Proof.
  intros E. rewrite <- (list_ascii_of_string_of_list_ascii l),
    <- (list_ascii_of_string_of_list_ascii l'). now rewrite E.
Qed.

(** ** The object key *)

Lemma EncodeToString_length src :
  length src = 32%nat -> String.length (base64.EncodeToString src) = 43%nat.
Proof.
  intros H. unfold base64.EncodeToString.
  rewrite length_string_of_list, Encode_length, H. reflexivity.
Qed.

Lemma EncodeToString_inj src src' :
  length src = length src' ->
  base64.EncodeToString src = base64.EncodeToString src' -> src = src'.
Proof.
  intros Hlen E. apply Encode_inj; [assumption|].
  now apply string_of_list_inj.
Qed.

Lemma objectKeyOf_length aspect src :
  length src = 32%nat ->
  String.length (objectKeyOf aspect src) = (String.length aspect + 48)%nat.
Proof.
  intros H. unfold objectKeyOf.
  rewrite !length_append, (EncodeToString_length _ H). cbn. lia.
Qed.

(** Keys determine the class and the random bytes they were built from. *)
Lemma objectKeyOf_inj aspect aspect' src src' :
  aspect ∈ aspectClasses -> aspect' ∈ aspectClasses ->
  length src = 32%nat -> length src' = 32%nat ->
  objectKeyOf aspect src = objectKeyOf aspect' src' ->
  aspect = aspect' ∧ src = src'.
Proof.
  intros Ha Ha' Hs Hs' E.
  assert (El : String.length aspect = String.length aspect').
  { apply (f_equal String.length) in E.
    rewrite !objectKeyOf_length in E by assumption. lia. }
  assert (aspect = aspect') as <-.
  { unfold aspectClasses in Ha, Ha'.
    repeat (apply elem_of_cons in Ha as [->|Ha]);
      try (now apply elem_of_nil in Ha);
      repeat (apply elem_of_cons in Ha' as [->|Ha']);
      try (now apply elem_of_nil in Ha');
      try reflexivity; discriminate El. }
  split; [reflexivity|].
  unfold objectKeyOf in E. apply String.app_inj in E.
  apply (String.app_inj "/") in E. apply append_inj_l in E.
  apply EncodeToString_inj; [lia|assumption].
Qed.

Lemma aspectOf_class width height : aspectOf width height ∈ aspectClasses.
Proof.
  unfold aspectOf, aspectClasses.
  destruct (withinBand _ landscapeTarget); [apply list_elem_of_here|].
  destruct (withinBand _ portraitTarget);
    [apply list_elem_of_further, list_elem_of_here|].
  apply list_elem_of_further, list_elem_of_further, list_elem_of_here.
Qed.

Lemma getVideoAspectRatio_class probed aspect :
  getVideoAspectRatio probed = Ok aspect -> aspect ∈ aspectClasses.
Proof.
  destruct probed as [| |streams]; cbn; try discriminate.
  destruct (firstVideo streams) as [width height].
  destruct ((width =? 0) || (height =? 0)); [discriminate|].
  intros [= <-]. apply aspectOf_class.
Qed.

(** ** The locator and the signing step *)

Lemma Index_at_comma bucket key :
  noComma bucket ->
  strings_pkg.Index (bucket +:+ "," +:+ key) "," = Some (bucket, key).
Proof.
  unfold noComma. induction bucket as [|c bucket IH]; intros H.
  - reflexivity.
  - change (String c bucket +:+ "," +:+ key)
      with (String c (bucket +:+ "," +:+ key)).
    cbn [strings_pkg.Index]. cbn [list_ascii_of_string] in H.
    destruct (Ascii.eqb_spec c ",") as [->|_].
    + exfalso. apply H. now left.
    + rewrite IH; [reflexivity|]. intros Hin. apply H. now right.
Qed.

Lemma SplitN_locator bucket key :
  noComma bucket ->
  strings_pkg.SplitN (Signed.locatorOf bucket key) "," 2 = [bucket; key].
Proof.
  intros H. unfold strings_pkg.SplitN.
  change (2 =? 0) with false. change (2 <? 0) with false. cbv iota zeta.
  set (n := Z.to_nat _).
  assert (n = 1%nat) as ->.
  { subst n. unfold Signed.locatorOf. rewrite !length_append.
    cbn [String.length]. lia. }
  cbn [strings_pkg.splitLoop]. unfold Signed.locatorOf.
  rewrite Index_at_comma by assumption. reflexivity.
Qed.

Lemma locator_not_empty bucket key :
  String.eqb (Signed.locatorOf bucket key) "" = false.
Proof.
  apply String.eqb_neq. intros E. apply (f_equal String.length) in E.
  unfold Signed.locatorOf in E. rewrite !length_append in E.
  cbn [String.length] in E. lia.
Qed.

(** C6, as amended: for every bucket string without a comma (the names
    the object store admits have none) and every key string, the locator
    written on upload splits on the read path into exactly that bucket and
    that key, and these are what the signing step asks a URL for. *)
Theorem locator_round_trip (bucket key : string) :
  noComma bucket ->
  strings_pkg.SplitN (Signed.locatorOf bucket key) "," 2 = [bucket; key]
  ∧ ∀ env video w,
      VideoURL video = Some (Signed.locatorOf bucket key) ->
      Signed.dbVideoToSignedVideo env video w
      = (Continue
           match s3_Presign env bucket key Signed.expireTime with
           | Some url => (setVideoURL video (Some url), None)
           | None => (video, Some Signed.PresignFailed)
           end,
         emit (EvPresign bucket key) w).
Proof.
  intros H. split; [now apply SplitN_locator|].
  intros env video w E. unfold Signed.dbVideoToSignedVideo.
  rewrite E, locator_not_empty, SplitN_locator by assumption.
  unfold mbind, M_bind, bind, Signed.generatePresignedURL.
  destruct (s3_Presign env bucket key Signed.expireTime); reflexivity.
Qed.

Lemma locator_round_trip_witness :
  strings_pkg.SplitN (Signed.locatorOf "tubely" "landscape/abc.mp4") "," 2
  = ["tubely"; "landscape/abc.mp4"]%string.
Proof.
  apply (locator_round_trip "tubely" "landscape/abc.mp4").
  unfold noComma. vm_compute. intuition discriminate.
Defined.

(** C6, as stated for every bucket string, fails: a comma in the bucket
    moves the cut. *)
Lemma locator_round_trip_counterexample :
  ¬ (∀ bucket key : string,
        strings_pkg.SplitN (Signed.locatorOf bucket key) "," 2 = [bucket; key]).
Proof. intros H. specialize (H "a,b" "k")%string. vm_compute in H. discriminate H. Qed.

(** C7: a record whose locator is nil or the empty string comes back from
    the signing step with no URL, every other field as it was, no error,
    and without any call to the object store. *)
Theorem unsigned_video_is_returned_without_error (env : Env) (video : Video)
  (w : World) :
  VideoURL video = None ∨ VideoURL video = Some ""%string ->
  Signed.dbVideoToSignedVideo env video w
  = (Continue (setVideoURL video None, None), w)
  ∧ VideoURL (setVideoURL video None) = None
  ∧ ID (setVideoURL video None) = ID video
  ∧ UserID (setVideoURL video None) = UserID video
  ∧ ThumbnailURL (setVideoURL video None) = ThumbnailURL video
  ∧ Title (setVideoURL video None) = Title video
  ∧ Description (setVideoURL video None) = Description video.
Proof.
  intros H. split; [|repeat split].
  unfold Signed.dbVideoToSignedVideo. destruct H as [-> | ->]; reflexivity.
Qed.

Lemma unsigned_video_is_returned_without_error_witness :
  Signed.dbVideoToSignedVideo
    (scenario 7 false false false remuxOk) sampleVideo sampleWorld
  = (Continue (setVideoURL sampleVideo None, None), sampleWorld).
Proof.
  apply (unsigned_video_is_returned_without_error
           (scenario 7 false false false remuxOk) sampleVideo sampleWorld).
  left. reflexivity.
Defined.

(** ** Running the handlers symbolically *)

Ltac unfold_steps :=
  unfold run, loadVideo, verifyOwnership, orFail, failWhen, defer,
    respondWithError, respondWithJSON, ParseMultipartForm, MaxBytesReader,
    unbounded, GetVideo, UpdateVideo, CreateTemp, Create, Copy, Open, contents,
    randRead, runFfprobe, processVideoForFastStart, PutObject, Remove, emit,
    setFs, setS3, setDb, mbind, M_bind, bind, mret, M_ret, ret.

Ltac reduce :=
  cbn [fs s3 db log status payload inner byteCeiling fst snd ID UserID VideoURL
       ThumbnailURL Title Description setVideoURL setThumbnailURL negb].

(** Case analysis on the first test of the goal whose subject is not
    itself a test: the outcome the surroundings give to the next call. *)
Ltac branch :=
  match goal with
  | |- context [match ?x with _ => _ end] =>
      lazymatch x with
      | context [match _ with _ => _ end] => fail
      | _ => destruct x eqn:?
      end
  end.

Ltac run_all := repeat (branch; reduce).

Ltac reduce_in H :=
  cbn [fs s3 db log status payload inner byteCeiling fst snd ID UserID VideoURL
       ThumbnailURL Title Description setVideoURL setThumbnailURL negb] in H.

(** The events of a run, from the two logs. *)
Ltac new_events H :=
  reduce_in H; rewrite <- ?app_assoc in H;
  first [ apply app_inv_head in H
        | rewrite <- (app_nil_r (log _)) in H at 1; apply app_inv_head in H ];
  cbn [app] in H.

(** The run added the events given, each of them an allowed one. *)
Ltac only_these_events :=
  first [ exists []; split; [now rewrite app_nil_r|constructor]
        | eexists; split; [rewrite <- ?app_assoc; reflexivity|];
          repeat (apply List.Forall_cons;
                  [first [left; eexists; reflexivity | right; reflexivity]|]);
          apply List.Forall_nil ].

(** ** Ownership *)

(** C1: when the caller authenticated by the token is not the owner
    recorded on the video (the comparison the handler makes is between the
    owner and the caller's id printed and parsed back), the handler answers
    401 having done nothing but read the record: the file system, the
    object store and the metadata store are as before, and the log of the
    run holds the record lookup alone - no temporary file, no external
    process, no put, no update. *)
Theorem ownership_is_checked_before_any_effect (cfg : apiConfig) (env : Env)
  (r : Request) (w : World) (videoID userID : UUID) (token : string)
  (video : Video) :
  uuid_Parse env (pathVideoID r) = Some videoID ->
  auth_GetBearerToken env (reqHeader r) = Some token ->
  auth_ValidateJWT env token (jwtSecret cfg) = Some userID ->
  db_GetVideo_fails env = false ->
  db w !! videoID = Some video ->
  uuid_Parse env (uuid_String env userID) ≠ Some (UserID video) ->
  let '(resp, w') := run (handlerUploadVideo cfg env r) w in
  status resp = StatusUnauthorized
  ∧ fs w' = fs w ∧ s3 w' = s3 w ∧ db w' = db w
  ∧ log w' = log w ++ [EvDbGet videoID].
Proof.
  intros Hid Htok Hjwt Hget Hvid Hown.
  unfold handlerUploadVideo. unfold_steps.
  rewrite Hid, Htok, Hjwt, Hget, Hvid. reduce.
  destruct (uuid_Parse env (uuid_String env userID)) as [uu|] eqn:E; reduce.
  - destruct (N.eqb_spec (UserID video) uu) as [Heq|Hne]; [congruence|].
    reduce. auto.
  - auto.
Qed.

Lemma ownership_is_checked_before_any_effect_witness :
  let '(resp, w') :=
    run (handlerUploadVideo sampleConfig
           (scenario 8 false false false remuxOk)
           (sampleRequest "video" "video/mp4" 2))
        sampleWorld in
  status resp = StatusUnauthorized
  ∧ fs w' = fs sampleWorld ∧ s3 w' = s3 sampleWorld ∧ db w' = db sampleWorld
  ∧ log w' = log sampleWorld ++ [EvDbGet 1%N].
Proof.
  apply (ownership_is_checked_before_any_effect sampleConfig
           (scenario 8 false false false remuxOk)
           (sampleRequest "video" "video/mp4" 2) sampleWorld
           1%N 8%N "token" sampleVideo);
    try reflexivity.
  vm_compute. discriminate.
Defined.

(** ** The byte ceiling *)




(** ** Failure of the metadata update after the put *)

Ltac among H :=
  first [ apply elem_of_nil in H; contradiction
        | apply elem_of_cons in H as [H|H]; [try discriminate H|among H] ].

(** C9: in every run in which the put succeeds and the update of the
    record then fails, the handler answers 500 "Failed to update video",
    the stored record is as it was, the object store is the old one with
    the uploaded object added under the key of the put, and after the
    failed update the run does nothing but remove its two local files:
    nothing more is sent to the object store, so the object stays. *)
Theorem failed_update_leaves_the_object (cfg : apiConfig) (env : Env)
  (r : Request) (w : World) (bucket key : string) (videoID : UUID)
  (evs : list Event) :
  log (run (handlerUploadVideo cfg env r) w).2 = log w ++ evs ->
  EvS3Put bucket key true ∈ evs ->
  EvDbUpdate videoID false ∈ evs ->
  (run (handlerUploadVideo cfg env r) w).1
  = errorResponse StatusInternalServerError "Failed to update video"
  ∧ db (run (handlerUploadVideo cfg env r) w).2 = db w
  ∧ (∃ body,
        s3 (run (handlerUploadVideo cfg env r) w).2
        = <[(bucket, key) := {| objBody := body; objContentType := "video/mp4" |}]>
            (s3 w))
  ∧ ∃ before tempFile,
      evs = before ++ [EvS3Put bucket key true; EvDbUpdate videoID false;
                       EvRemove (tempFile +:+ ".processing");
                       EvRemove tempFile].
Proof.
  unfold handlerUploadVideo. unfold_steps. reduce.
  run_all; intros Hlog Hput Hupd; new_events Hlog; subst evs;
    try solve [among Hput]; try solve [among Hupd].
  all: among Hput; among Hupd; simplify_eq.
  all: split; [reflexivity|split; [reflexivity|split; [eauto|]]].
  all: eexists [_; _; _; _; _; _; _], _; reflexivity.
Qed.

Lemma failed_update_leaves_the_object_witness :
  (run (handlerUploadVideo sampleConfig
          (scenario 7 false false true remuxOk)
          (sampleRequest "video" "video/mp4" 2))
       sampleWorld).1
  = errorResponse StatusInternalServerError "Failed to update video".
Proof.
  apply (failed_update_leaves_the_object sampleConfig
           (scenario 7 false false true remuxOk)
           (sampleRequest "video" "video/mp4" 2) sampleWorld
           "tubely"
           (objectKeyOf "landscape" (map (fun _ => Byte.x2a) (seq 0 32)))
           1%N
           (log (run (handlerUploadVideo sampleConfig
                        (scenario 7 false false true remuxOk)
                        (sampleRequest "video" "video/mp4" 2))
                     sampleWorld).2)).
  - reflexivity.
  - vm_compute.
    repeat first [apply list_elem_of_here | apply list_elem_of_further].
  - vm_compute.
    repeat first [apply list_elem_of_here | apply list_elem_of_further].
Defined.

(** ** The key of the uploaded object *)



(** ** Release of the local files *)

Lemma processing_path_differs path : path +:+ ".processing" ≠ path.
Proof.
  intros E. apply (f_equal String.length) in E.
  rewrite length_append in E. cbn [String.length] in E. lia.
Qed.

(** Removing a file twice is removing it once. *)
Lemma Remove_idempotent path w : fs (Remove path (Remove path w)) = fs (Remove path w).
Proof. unfold Remove, emit, setFs. cbn [fs]. apply delete_delete_eq. Qed.

(** Removing a file that is not there changes no file. *)
Lemma Remove_missing path w : fs w !! path = None -> fs (Remove path w) = fs w.
Proof. intros H. unfold Remove, emit, setFs. cbn [fs]. now apply delete_id. Qed.

(** What holds of every run: the staged file is gone at the end, and the
    remux output is gone (or was never touched) unless the remux step is
    the one that failed. *)
Lemma local_files_released (cfg : apiConfig) (env : Env) (r : Request)
  (w : World) (evs : list Event) (tempFile : string) :
  log (run (handlerUploadVideo cfg env r) w).2 = log w ++ evs ->
  EvCreateTemp tempFile ∈ evs ->
  fs (run (handlerUploadVideo cfg env r) w).2 !! tempFile = None
  ∧ ((run (handlerUploadVideo cfg env r) w).1
     ≠ errorResponse StatusInternalServerError "Video processing failed" ->
     fs (run (handlerUploadVideo cfg env r) w).2 !! (tempFile +:+ ".processing")
     = None
     ∨ fs (run (handlerUploadVideo cfg env r) w).2 !! (tempFile +:+ ".processing")
       = fs w !! (tempFile +:+ ".processing")).
Proof.
  unfold handlerUploadVideo. unfold_steps. reduce.
  run_all; intros Hlog Hin; new_events Hlog; subst evs;
    try solve [among Hin].
  all: among Hin; simplify_eq.
  all: split; [try apply lookup_delete_eq;
               rewrite lookup_delete_ne by apply processing_path_differs;
               apply lookup_delete_eq|].
  all: intros Hresp; try (exfalso; apply Hresp; reflexivity).
  all: try (left; rewrite lookup_delete_ne
              by (apply not_eq_sym, processing_path_differs);
            apply lookup_delete_eq).
  all: right; rewrite lookup_delete_ne
         by (apply not_eq_sym, processing_path_differs);
       rewrite !lookup_insert_ne
         by (apply not_eq_sym, processing_path_differs);
       reflexivity.
Qed.

(** C2 at the failing input: [ffmpeg] creates its output file and then
    exits with an error.  The handler answers 500 and removes the staged
    file, but the output file, which was not there before the request, is
    still on disk afterwards: the run never removes it. *)
Theorem failed_remux_leaves_its_output :
  let before := sampleWorld in
  let '(resp, after) :=
    run (handlerUploadVideo sampleConfig
           (scenario 7 false false false remuxAborts)
           (sampleRequest "video" "video/mp4" 2))
        before in
  resp = errorResponse StatusInternalServerError "Video processing failed"
  ∧ fs before !! "/tmp/tubely-upload-1.mp4.processing"%string = None
  ∧ fs after !! "/tmp/tubely-upload-1.mp4"%string = None
  ∧ fs after !! "/tmp/tubely-upload-1.mp4.processing"%string = Some []
  ∧ log after
    = [EvDbGet 1%N; EvReadBody 2;
       EvCreateTemp "/tmp/tubely-upload-1.mp4";
       EvWrite "/tmp/tubely-upload-1.mp4" 2;
       EvExec "ffprobe"
         ["-v"; "error"; "-print_format"; "json"; "-show_streams";
          "/tmp/tubely-upload-1.mp4"];
       EvExec "ffmpeg"
         ["-i"; "/tmp/tubely-upload-1.mp4"; "-c"; "copy"; "-movflags";
          "faststart"; "-f"; "mp4"; "/tmp/tubely-upload-1.mp4.processing"];
       EvRemove "/tmp/tubely-upload-1.mp4"]%string.
Proof. vm_compute. repeat split. Qed.

(** ** The thumbnail handlers *)

Ltac no_lookup_before :=
  repeat (apply List.Forall_cons; [intros ?; discriminate|]);
  apply List.Forall_nil.

Ltac thumbnail_run :=
  unfold_steps; reduce;
  run_all; intros Hlog Hin; new_events Hlog; subst;
  try solve [among Hin];
  among Hin; simplify_eq;
  eexists _, _, _, _;
  (split; [reflexivity|]);
  (split; [eassumption|]);
  (split; [first [ eexists [_]; split; [reflexivity|no_lookup_before]
                 | eexists [_; _]; split; [reflexivity|no_lookup_before] ]|]);
  (split; [apply lookup_insert_eq|]);
  intros video' Hup Hvideo (token & userID & caller & Htok & Hjwt & Hparse & Hne);
  simplify_eq;
  try solve [repeat split; reflexivity];
  try (exfalso;
       match goal with
       | H : negb (N.eqb ?a ?b) = false |- _ =>
           destruct (N.eqb_spec a b); [congruence|discriminate H]
       end).

Lemma thumbnail_by_id_written_before_load (cfg : apiConfig) (env : Env)
  (r : Request) (w : World) (evs : list Event) (videoID : UUID) :
  log (run (ThumbnailByID.handlerUploadThumbnail cfg env r) w).2 = log w ++ evs ->
  EvDbGet videoID ∈ evs ->
  ∃ filename file form after,
    let path := filepath_Join env (assetsRoot cfg) filename in
    bodyForm r = Some form
    ∧ FormFileOf form "thumbnail" = Some file
    ∧ writtenBeforeLoad evs path (partData file) videoID after
    ∧ fs (run (ThumbnailByID.handlerUploadThumbnail cfg env r) w).2 !! path
      = Some (partData file)
    ∧ ∀ video,
        db_GetVideo_fails env = false -> db w !! videoID = Some video ->
        callerIsNotOwner cfg env r video ->
        (run (ThumbnailByID.handlerUploadThumbnail cfg env r) w).1
        = errorResponse StatusUnauthorized "Unauthorized access"
        ∧ after = []
        ∧ db (run (ThumbnailByID.handlerUploadThumbnail cfg env r) w).2 = db w.
Proof. unfold ThumbnailByID.handlerUploadThumbnail. thumbnail_run. Qed.

Lemma thumbnail_random_written_before_load (cfg : apiConfig) (env : Env)
  (r : Request) (w : World) (evs : list Event) (videoID : UUID) :
  log (run (ThumbnailRandom.handlerUploadThumbnail cfg env r) w).2 = log w ++ evs ->
  EvDbGet videoID ∈ evs ->
  ∃ filename file form after,
    let path := filepath_Join env (assetsRoot cfg) filename in
    bodyForm r = Some form
    ∧ FormFileOf form "thumbnail" = Some file
    ∧ writtenBeforeLoad evs path (partData file) videoID after
    ∧ fs (run (ThumbnailRandom.handlerUploadThumbnail cfg env r) w).2 !! path
      = Some (partData file)
    ∧ ∀ video,
        db_GetVideo_fails env = false -> db w !! videoID = Some video ->
        callerIsNotOwner cfg env r video ->
        (run (ThumbnailRandom.handlerUploadThumbnail cfg env r) w).1
        = errorResponse StatusUnauthorized "Unauthorized access"
        ∧ after = []
        ∧ db (run (ThumbnailRandom.handlerUploadThumbnail cfg env r) w).2 = db w.
Proof. unfold ThumbnailRandom.handlerUploadThumbnail. thumbnail_run. Qed.



(** ** The signed variant, end to end *)

Lemma signing_of_locator bucket key env video w :
  noComma bucket ->
  VideoURL video = Some (Signed.locatorOf bucket key) ->
  Signed.dbVideoToSignedVideo env video w
  = (Continue
       match s3_Presign env bucket key Signed.expireTime with
       | Some url => (setVideoURL video (Some url), None)
       | None => (video, Some Signed.PresignFailed)
       end,
     emit (EvPresign bucket key) w).
Proof.
  intros H E. unfold Signed.dbVideoToSignedVideo.
  rewrite E, locator_not_empty, SplitN_locator by assumption.
  unfold mbind, M_bind, bind, Signed.generatePresignedURL.
  destruct (s3_Presign env bucket key Signed.expireTime); reflexivity.
Qed.

(** An upload through the signed variant that ends with 200 has stored the
    locator of the object it put in the record, and answers with the URL
    the object store signed for exactly that bucket and key. *)
Lemma signed_upload_answers_with_signed_url (cfg : apiConfig) (env : Env)
  (r : Request) (w : World) :
  noComma (s3Bucket cfg) ->
  status (run (Signed.handlerUploadVideo cfg env r) w).1 = StatusOK ->
  ∃ key url video,
    s3_Presign env (s3Bucket cfg) key Signed.expireTime = Some url
    ∧ is_Some (s3 (run (Signed.handlerUploadVideo cfg env r) w).2
               !! (s3Bucket cfg, key))
    ∧ db (run (Signed.handlerUploadVideo cfg env r) w).2 !! ID video
      = Some (setVideoURL video (Some (Signed.locatorOf (s3Bucket cfg) key)))
    ∧ payload (run (Signed.handlerUploadVideo cfg env r) w).1
      = VideoJSON (setVideoURL video (Some url)).
Proof.
  intros Hbucket. unfold Signed.handlerUploadVideo. unfold_steps. reduce.
  repeat (first
    [ erewrite (signing_of_locator _ _ _ _ _ Hbucket) by reflexivity
    | branch ]; reduce);
    intros Hok; try discriminate Hok.
  all: eexists _, _, _; split; [eassumption|].
  all: split; [apply lookup_insert_is_Some; now left|].
  all: split; [apply lookup_insert_eq|reflexivity].
Qed.

(** ** The earlier flat key *)

(** The key of the variant without classification is the encoding and the
    extension, 47 characters with no class in front. *)
Lemma flat_key_has_no_class (randomBytes : list byte) :
  length randomBytes = 32%nat ->
  Flat.objectKeyOf randomBytes = base64.EncodeToString randomBytes +:+ ".mp4"
  ∧ String.length (Flat.objectKeyOf randomBytes) = 47%nat
  ∧ "/"%char ∉ list_ascii_of_string (Flat.objectKeyOf randomBytes).
Proof.
  intros Hlen. split; [reflexivity|]. unfold Flat.objectKeyOf. split.
  - rewrite length_append, (EncodeToString_length _ Hlen). reflexivity.
  - rewrite list_of_append. unfold base64.EncodeToString.
    rewrite list_ascii_of_string_of_list_ascii. intros Hin.
    apply elem_of_app in Hin as [Hin|Hin].
    + pose proof (Encode_alphabet randomBytes) as Hall.
      rewrite Forall_forall in Hall. apply Hall in Hin.
      vm_compute in Hin. among Hin.
    + vm_compute in Hin. among Hin.
Qed.

(** * Further properties of the handlers *)

(** ** What the upload handler leaves behind, by kind of answer *)

Ltac lookups_and_reads :=
  first [ exists []; split; [now rewrite app_nil_r|constructor]
        | eexists; split; [rewrite <- ?app_assoc; reflexivity|];
          repeat (apply List.Forall_cons;
                  [first [left; eexists; reflexivity
                         | right; eexists; reflexivity]|]);
          apply List.Forall_nil ].

Ltac absurd_status H :=
  exfalso; vm_compute in H; destruct H as [H1 H2];
  first [apply H1; reflexivity | discriminate H2].

Ltac no_side_effects_run :=
  unfold_steps; reduce;
  run_all; intros H; try solve [absurd_status H];
  (split; [reflexivity|split; [reflexivity|split; [reflexivity|]]]);
  lookups_and_reads.

Lemma client_errors_main (cfg : apiConfig) (env : Env) (r : Request) (w : World) :
  400 <= status (run (handlerUploadVideo cfg env r) w).1 < 500 ->
  fs (run (handlerUploadVideo cfg env r) w).2 = fs w
  ∧ s3 (run (handlerUploadVideo cfg env r) w).2 = s3 w
  ∧ db (run (handlerUploadVideo cfg env r) w).2 = db w
  ∧ ∃ evs,
      log (run (handlerUploadVideo cfg env r) w).2 = log w ++ evs
      ∧ Forall (fun e => (∃ id, e = EvDbGet id) ∨ (∃ n, e = EvReadBody n)) evs.
Proof. unfold handlerUploadVideo. no_side_effects_run. Qed.

Lemma client_errors_signed (cfg : apiConfig) (env : Env) (r : Request) (w : World) :
  400 <= status (run (Signed.handlerUploadVideo cfg env r) w).1 < 500 ->
  fs (run (Signed.handlerUploadVideo cfg env r) w).2 = fs w
  ∧ s3 (run (Signed.handlerUploadVideo cfg env r) w).2 = s3 w
  ∧ db (run (Signed.handlerUploadVideo cfg env r) w).2 = db w
  ∧ ∃ evs,
      log (run (Signed.handlerUploadVideo cfg env r) w).2 = log w ++ evs
      ∧ Forall (fun e => (∃ id, e = EvDbGet id) ∨ (∃ n, e = EvReadBody n)) evs.
Proof.
  unfold Signed.handlerUploadVideo, Signed.dbVideoToSignedVideo,
    Signed.generatePresignedURL.
  no_side_effects_run.
Qed.

Lemma client_errors_flat (cfg : apiConfig) (env : Env) (r : Request) (w : World) :
  400 <= status (run (Flat.handlerUploadVideo cfg env r) w).1 < 500 ->
  fs (run (Flat.handlerUploadVideo cfg env r) w).2 = fs w
  ∧ s3 (run (Flat.handlerUploadVideo cfg env r) w).2 = s3 w
  ∧ db (run (Flat.handlerUploadVideo cfg env r) w).2 = db w
  ∧ ∃ evs,
      log (run (Flat.handlerUploadVideo cfg env r) w).2 = log w ++ evs
      ∧ Forall (fun e => (∃ id, e = EvDbGet id) ∨ (∃ n, e = EvReadBody n)) evs.
Proof. unfold Flat.handlerUploadVideo. no_side_effects_run. Qed.

Ltac each_handler Hh :=
  repeat (apply elem_of_cons in Hh as [->|Hh]);
  [..|apply elem_of_nil in Hh; contradiction].

(** In each version of the video upload handler, every answer in the 4xx
    range (bad id, missing or invalid token, unknown video, caller not the
    owner, unreadable or oversized form, missing file, wrong media type)
    comes from a run that changed no file, no object and no record, and
    that did no more than look the record up and read the body. *)
Theorem client_errors_have_no_side_effects
  (h : apiConfig -> Env -> Request -> M Response) (cfg : apiConfig)
  (env : Env) (r : Request) (w : World) :
  h ∈ videoHandlers ->
  400 <= status (run (h cfg env r) w).1 < 500 ->
  fs (run (h cfg env r) w).2 = fs w
  ∧ s3 (run (h cfg env r) w).2 = s3 w
  ∧ db (run (h cfg env r) w).2 = db w
  ∧ ∃ evs,
      log (run (h cfg env r) w).2 = log w ++ evs
      ∧ Forall (fun e => (∃ id, e = EvDbGet id) ∨ (∃ n, e = EvReadBody n)) evs.
Proof.
  intros Hh. unfold videoHandlers in Hh. each_handler Hh.
  - apply client_errors_main.
  - apply client_errors_signed.
  - apply client_errors_flat.
Qed.

Lemma client_errors_have_no_side_effects_witness :
  fs (run (Signed.handlerUploadVideo sampleConfig
             (scenario 7 false false false remuxOk)
             (sampleRequest "video" "image/png" 2))
          sampleWorld).2
  = fs sampleWorld.
Proof.
  apply (client_errors_have_no_side_effects Signed.handlerUploadVideo
           sampleConfig (scenario 7 false false false remuxOk)
           (sampleRequest "video" "image/png" 2) sampleWorld).
  - apply list_elem_of_further, list_elem_of_here.
  - vm_compute. split; [discriminate|reflexivity].
Defined.

(** The stored record changes only in a run answered 200, and the object
    store changes only in such a run or in one that fails at the update of
    the record. *)
Theorem record_changes_only_on_success (cfg : apiConfig) (env : Env)
  (r : Request) (w : World) :
  status (run (handlerUploadVideo cfg env r) w).1 ≠ StatusOK ->
  db (run (handlerUploadVideo cfg env r) w).2 = db w
  ∧ (s3 (run (handlerUploadVideo cfg env r) w).2 = s3 w
     ∨ (run (handlerUploadVideo cfg env r) w).1
       = errorResponse StatusInternalServerError "Failed to update video").
Proof.
  unfold handlerUploadVideo. unfold_steps. reduce.
  run_all; intros H; try solve [exfalso; apply H; reflexivity].
  all: split; [reflexivity|].
  all: first [left; reflexivity | right; reflexivity].
Qed.

Lemma record_changes_only_on_success_witness :
  db (run (handlerUploadVideo sampleConfig
             (scenario 7 false true false remuxOk)
             (sampleRequest "video" "video/mp4" 2))
          sampleWorld).2
  = db sampleWorld.
Proof.
  apply (record_changes_only_on_success sampleConfig
           (scenario 7 false true false remuxOk)
           (sampleRequest "video" "video/mp4" 2) sampleWorld).
  vm_compute. discriminate.
Defined.

(** A run answered 200 loaded the record under the id of the path, stored
    it back with nothing changed but the video URL, now the public address
    of the object just put, and answered with that very record. *)
Theorem successful_upload_commits_the_record (cfg : apiConfig) (env : Env)
  (r : Request) (w : World) :
  status (run (handlerUploadVideo cfg env r) w).1 = StatusOK ->
  ∃ videoID video key object,
    uuid_Parse env (pathVideoID r) = Some videoID
    ∧ db w !! videoID = Some video
    ∧ s3 (run (handlerUploadVideo cfg env r) w).2
      = <[(s3Bucket cfg, key) := object]> (s3 w)
    ∧ db (run (handlerUploadVideo cfg env r) w).2
      = <[ID video := setVideoURL video (Some (publicURL cfg key))]> (db w)
    ∧ (run (handlerUploadVideo cfg env r) w).1
      = {| status := StatusOK;
           payload := VideoJSON (setVideoURL video (Some (publicURL cfg key))) |}.
Proof.
  unfold handlerUploadVideo. unfold_steps. reduce.
  run_all; intros H; try discriminate H.
  all: eexists _, _, _, _.
  all: split; [reflexivity|split; [eassumption|]].
  all: split; [reflexivity|split; reflexivity].
Qed.

Lemma successful_upload_commits_the_record_witness :
  ∃ videoID video,
    uuid_Parse (scenario 7 false false false remuxOk)
      (pathVideoID (sampleRequest "video" "video/mp4" 2)) = Some videoID
    ∧ db sampleWorld !! videoID = Some video.
Proof.
  destruct (successful_upload_commits_the_record sampleConfig
              (scenario 7 false false false remuxOk)
              (sampleRequest "video" "video/mp4" 2) sampleWorld)
    as (videoID & video & key & object & H1 & H2 & _).
  - vm_compute. reflexivity.
  - exists videoID, video. split; assumption.
Defined.

(** The object of a run answered 200 is the file [ffmpeg] produced from
    the staged upload, stored as video/mp4, and neither the staged file
    nor the produced one is on disk when the run has ended. *)
Theorem successful_upload_stores_the_remuxed_file (cfg : apiConfig) (env : Env)
  (r : Request) (w : World) :
  status (run (handlerUploadVideo cfg env r) w).1 = StatusOK ->
  ∃ form file tempFile key body,
    let processedPath := tempFile +:+ ".processing" in
    let remux :=
      ffmpeg env (<[tempFile := partData file]> (fs w)) tempFile processedPath in
    bodyForm r = Some form
    ∧ FormFileOf form "video" = Some file
    ∧ os_CreateTemp_name env = Some tempFile
    ∧ fs w !! tempFile = None
    ∧ ffmpegExitOk remux = true
    ∧ (∀ output, ffmpegOutput remux = Some output -> body = output)
    ∧ s3 (run (handlerUploadVideo cfg env r) w).2 !! (s3Bucket cfg, key)
      = Some {| objBody := body; objContentType := "video/mp4" |}
    ∧ fs (run (handlerUploadVideo cfg env r) w).2 !! tempFile = None
    ∧ fs (run (handlerUploadVideo cfg env r) w).2 !! processedPath = None.
Proof.
  unfold handlerUploadVideo. unfold_steps. reduce.
  run_all; intros H; try discriminate H.
  all: rewrite insert_insert_eq in *.
  all: eexists _, _, _, _, _; cbv zeta.
  all: split; [reflexivity|split; [eassumption|split; [reflexivity|]]].
  all: split; [assumption|split; [assumption|]].
  all: refine (conj _ (conj (lookup_insert_eq _ _ _) (conj _ _))).
  all: try apply lookup_delete_eq.
  all: try (rewrite lookup_delete_ne
              by apply not_eq_sym, processing_path_differs;
            apply lookup_delete_eq).
  all: intros output Hout;
    try match goal with
        | Hl : <[_ := _]> _ !! _ = Some _ |- _ =>
            rewrite lookup_insert_eq in Hl
        end;
    congruence.
Qed.

Lemma successful_upload_stores_the_remuxed_file_witness :
  ∃ tempFile,
    os_CreateTemp_name (scenario 7 false false false remuxOk) = Some tempFile
    ∧ fs (run (handlerUploadVideo sampleConfig
                 (scenario 7 false false false remuxOk)
                 (sampleRequest "video" "video/mp4" 2))
              sampleWorld).2 !! tempFile = None.
Proof.
  destruct (successful_upload_stores_the_remuxed_file sampleConfig
              (scenario 7 false false false remuxOk)
              (sampleRequest "video" "video/mp4" 2) sampleWorld)
    as (form & file & tempFile & key & body & _ & _ & H3 & _ & _ & _ & _ & H8 & _).
  - vm_compute. reflexivity.
  - exists tempFile. split; assumption.
Defined.

(** ** The order of the steps *)

(** Whenever the upload handler calls the object store, the run so far
    has been, in this order: the record lookup, the reading of the body,
    the creation and filling of the staged file, [ffprobe] and then [ffmpeg]
    on that file, the random draw.  The put goes to the configured bucket,
    and what follows it is at most one update of the record and then the
    removal of the two local files. *)
Theorem put_follows_probe_and_remux (cfg : apiConfig) (env : Env)
  (r : Request) (w : World) (evs : list Event) (bucket key : string)
  (ok : bool) :
  log (run (handlerUploadVideo cfg env r) w).2 = log w ++ evs ->
  EvS3Put bucket key ok ∈ evs ->
  ∃ videoID n tempFile size after,
    let processedPath := tempFile +:+ ".processing" in
    bucket = s3Bucket cfg
    ∧ evs = [EvDbGet videoID; EvReadBody n; EvCreateTemp tempFile;
             EvWrite tempFile size;
             EvExec "ffprobe" ["-v"; "error"; "-print_format"; "json";
                               "-show_streams"; tempFile];
             EvExec "ffmpeg" ["-i"; tempFile; "-c"; "copy"; "-movflags";
                              "faststart"; "-f"; "mp4"; processedPath];
             EvRand 32; EvS3Put bucket key ok] ++ after
    ∧ (after = [EvRemove processedPath; EvRemove tempFile]
       ∨ ∃ id updated,
           ok = true
           ∧ after = [EvDbUpdate id updated; EvRemove processedPath;
                      EvRemove tempFile]).
Proof.
  unfold handlerUploadVideo. unfold_steps. reduce.
  run_all; intros Hlog Hput; new_events Hlog; subst evs;
    try solve [among Hput].
  all: among Hput; simplify_eq.
  all: eexists _, _, _, _, _; cbv zeta.
  all: split; [reflexivity|split; [reflexivity|]].
  all: first [left; reflexivity | right; eexists _, _; split; reflexivity].
Qed.

Lemma put_follows_probe_and_remux_witness :
  ∃ after,
    log (run (handlerUploadVideo sampleConfig
                (scenario 7 false true false remuxOk)
                (sampleRequest "video" "video/mp4" 2))
             sampleWorld).2
    = [EvDbGet 1%N; EvReadBody 2; EvCreateTemp "/tmp/tubely-upload-1.mp4";
       EvWrite "/tmp/tubely-upload-1.mp4" 2]%string ++ after.
Proof.
  destruct (put_follows_probe_and_remux sampleConfig
              (scenario 7 false true false remuxOk)
              (sampleRequest "video" "video/mp4" 2) sampleWorld
              (log (run (handlerUploadVideo sampleConfig
                           (scenario 7 false true false remuxOk)
                           (sampleRequest "video" "video/mp4" 2))
                        sampleWorld).2)
              "tubely"
              (objectKeyOf "landscape" (map (fun _ => Byte.x2a) (seq 0 32)))
              false)
    as (videoID & n & tempFile & size & after & _ & Hevs & _).
  - reflexivity.
  - vm_compute.
    repeat first [apply list_elem_of_here | apply list_elem_of_further].
  - eexists. vm_compute. reflexivity.
Defined.

(** ** The same guarantees in the other versions of the handler *)

Lemma local_files_released_signed (cfg : apiConfig) (env : Env) (r : Request)
  (w : World) (evs : list Event) (tempFile : string) :
  log (run (Signed.handlerUploadVideo cfg env r) w).2 = log w ++ evs ->
  EvCreateTemp tempFile ∈ evs ->
  fs (run (Signed.handlerUploadVideo cfg env r) w).2 !! tempFile = None
  ∧ ((run (Signed.handlerUploadVideo cfg env r) w).1
     ≠ errorResponse StatusInternalServerError "Video processing failed" ->
     fs (run (Signed.handlerUploadVideo cfg env r) w).2
       !! (tempFile +:+ ".processing") = None
     ∨ fs (run (Signed.handlerUploadVideo cfg env r) w).2
         !! (tempFile +:+ ".processing")
       = fs w !! (tempFile +:+ ".processing")).
Proof.
  unfold Signed.handlerUploadVideo, Signed.dbVideoToSignedVideo,
    Signed.generatePresignedURL.
  unfold_steps. reduce.
  run_all; intros Hlog Hin; new_events Hlog; subst evs;
    try solve [among Hin].
  all: among Hin; simplify_eq.
  all: split; [try apply lookup_delete_eq;
               rewrite lookup_delete_ne by apply processing_path_differs;
               apply lookup_delete_eq|].
  all: intros Hresp; try (exfalso; apply Hresp; reflexivity).
  all: try (left; rewrite lookup_delete_ne
              by (apply not_eq_sym, processing_path_differs);
            apply lookup_delete_eq).
  all: right; rewrite lookup_delete_ne
         by (apply not_eq_sym, processing_path_differs);
       rewrite !lookup_insert_ne
         by (apply not_eq_sym, processing_path_differs);
       reflexivity.
Qed.

(** In both versions of the handler that remux, the staged file a run has
    created is gone when the run ends, whatever the answer; and unless the
    answer is the failure of the remux step, the file at the output path of
    [ffmpeg] is gone too, or the run never got to touch that path. *)
Theorem staged_files_are_released
  (h : apiConfig -> Env -> Request -> M Response) (cfg : apiConfig)
  (env : Env) (r : Request) (w : World) (evs : list Event)
  (tempFile : string) :
  h ∈ remuxingHandlers ->
  log (run (h cfg env r) w).2 = log w ++ evs ->
  EvCreateTemp tempFile ∈ evs ->
  fs (run (h cfg env r) w).2 !! tempFile = None
  ∧ ((run (h cfg env r) w).1
     ≠ errorResponse StatusInternalServerError "Video processing failed" ->
     fs (run (h cfg env r) w).2 !! (tempFile +:+ ".processing") = None
     ∨ fs (run (h cfg env r) w).2 !! (tempFile +:+ ".processing")
       = fs w !! (tempFile +:+ ".processing")).
Proof.
  intros Hh. unfold remuxingHandlers in Hh. each_handler Hh.
  - apply local_files_released.
  - apply local_files_released_signed.
Qed.

Lemma staged_files_are_released_witness :
  fs (run (handlerUploadVideo sampleConfig
             (scenario 7 false true false remuxOk)
             (sampleRequest "video" "video/mp4" 2))
          sampleWorld).2 !! "/tmp/tubely-upload-1.mp4"%string
  = None.
Proof.
  apply (staged_files_are_released handlerUploadVideo sampleConfig
           (scenario 7 false true false remuxOk)
           (sampleRequest "video" "video/mp4" 2) sampleWorld
           (log (run (handlerUploadVideo sampleConfig
                        (scenario 7 false true false remuxOk)
                        (sampleRequest "video" "video/mp4" 2))
                     sampleWorld).2)
           "/tmp/tubely-upload-1.mp4").
  - apply list_elem_of_here.
  - reflexivity.
  - vm_compute.
    repeat first [apply list_elem_of_here | apply list_elem_of_further].
Defined.

Lemma signed_upload_answers_with_signed_url_witness :
  ∃ key url,
    s3_Presign (scenario 7 false false false remuxOk)
      (s3Bucket sampleConfig) key Signed.expireTime = Some url.
Proof.
  destruct (signed_upload_answers_with_signed_url sampleConfig
              (scenario 7 false false false remuxOk)
              (sampleRequest "video" "video/mp4" 2) sampleWorld)
    as (key & url & video & H & _).
  - unfold noComma. vm_compute. intuition discriminate.
  - vm_compute. reflexivity.
  - exists key, url. exact H.
Defined.

Ltac unauthenticated_run :=
  unfold_steps; reduce;
  intros [Hno|(token & Htok & Hjwt)];
  [ rewrite Hno | rewrite Htok, Hjwt ];
  run_all;
  (split; [reflexivity|]);
  first [left; reflexivity | right; reflexivity].

Lemma unauthenticated_main cfg env r w :
  unauthenticated cfg env r ->
  (run (handlerUploadVideo cfg env r) w).2 = w
  ∧ (status (run (handlerUploadVideo cfg env r) w).1 = StatusBadRequest
     ∨ status (run (handlerUploadVideo cfg env r) w).1 = StatusUnauthorized).
Proof. unfold handlerUploadVideo. unauthenticated_run. Qed.

Lemma unauthenticated_signed cfg env r w :
  unauthenticated cfg env r ->
  (run (Signed.handlerUploadVideo cfg env r) w).2 = w
  ∧ (status (run (Signed.handlerUploadVideo cfg env r) w).1 = StatusBadRequest
     ∨ status (run (Signed.handlerUploadVideo cfg env r) w).1
       = StatusUnauthorized).
Proof. unfold Signed.handlerUploadVideo. unauthenticated_run. Qed.

Lemma unauthenticated_flat cfg env r w :
  unauthenticated cfg env r ->
  (run (Flat.handlerUploadVideo cfg env r) w).2 = w
  ∧ (status (run (Flat.handlerUploadVideo cfg env r) w).1 = StatusBadRequest
     ∨ status (run (Flat.handlerUploadVideo cfg env r) w).1 = StatusUnauthorized).
Proof. unfold Flat.handlerUploadVideo. unauthenticated_run. Qed.

Lemma unauthenticated_by_id cfg env r w :
  unauthenticated cfg env r ->
  (run (ThumbnailByID.handlerUploadThumbnail cfg env r) w).2 = w
  ∧ (status (run (ThumbnailByID.handlerUploadThumbnail cfg env r) w).1
     = StatusBadRequest
     ∨ status (run (ThumbnailByID.handlerUploadThumbnail cfg env r) w).1
       = StatusUnauthorized).
Proof. unfold ThumbnailByID.handlerUploadThumbnail. unauthenticated_run. Qed.

Lemma unauthenticated_random cfg env r w :
  unauthenticated cfg env r ->
  (run (ThumbnailRandom.handlerUploadThumbnail cfg env r) w).2 = w
  ∧ (status (run (ThumbnailRandom.handlerUploadThumbnail cfg env r) w).1
     = StatusBadRequest
     ∨ status (run (ThumbnailRandom.handlerUploadThumbnail cfg env r) w).1
       = StatusUnauthorized).
Proof. unfold ThumbnailRandom.handlerUploadThumbnail. unauthenticated_run. Qed.

(** ** Authentication *)

(** In every handler, a request without a token, or with a token that
    does not validate, is answered 401 (or 400 when its path value is not
    an id) and leaves the world exactly as it was: no lookup, no read of
    the body, no file, no object, no record. *)
Theorem unauthenticated_request_changes_nothing
  (h : apiConfig -> Env -> Request -> M Response) (cfg : apiConfig)
  (env : Env) (r : Request) (w : World) :
  h ∈ allHandlers ->
  unauthenticated cfg env r ->
  (run (h cfg env r) w).2 = w
  ∧ (status (run (h cfg env r) w).1 = StatusBadRequest
     ∨ status (run (h cfg env r) w).1 = StatusUnauthorized).
Proof.
  intros Hh. unfold allHandlers, videoHandlers, thumbnailHandlers in Hh.
  cbn [app] in Hh. each_handler Hh.
  - apply unauthenticated_main.
  - apply unauthenticated_signed.
  - apply unauthenticated_flat.
  - apply unauthenticated_by_id.
  - apply unauthenticated_random.
Qed.

Lemma unauthenticated_request_changes_nothing_witness :
  (run (ThumbnailRandom.handlerUploadThumbnail sampleConfig
          (withoutToken (scenario 7 false false false remuxOk))
          (sampleRequest "thumbnail" "image/png" 2))
       sampleWorld).2
  = sampleWorld.
Proof.
  apply (unauthenticated_request_changes_nothing
           ThumbnailRandom.handlerUploadThumbnail sampleConfig
           (withoutToken (scenario 7 false false false remuxOk))
           (sampleRequest "thumbnail" "image/png" 2) sampleWorld).
  - unfold allHandlers, videoHandlers, thumbnailHandlers. cbn [app].
    repeat first [apply list_elem_of_here | apply list_elem_of_further].
  - left. reflexivity.
Defined.

(** ** Ownership in every version of the video handler *)

Ltac non_owner_run Hid Htok Hjwt Hget Hvid Hown :=
  unfold_steps; rewrite Hid, Htok, Hjwt, Hget, Hvid; reduce;
  match goal with
  | |- context [uuid_Parse ?env (uuid_String ?env ?u)] =>
      destruct (uuid_Parse env (uuid_String env u)) as [uu|] eqn:E; reduce
  end;
  [ match goal with
    | |- context [N.eqb ?a ?b] =>
        destruct (N.eqb_spec a b) as [Heq|Hne]; [congruence|]; reduce
    end; auto
  | auto ].

(** In each version of the video upload handler a caller who is not the
    owner of the record is answered 401 after the record lookup and before
    anything else: files, objects and records are unchanged and the lookup
    is the only event of the run. *)
Theorem non_owner_is_refused_in_every_version
  (h : apiConfig -> Env -> Request -> M Response) (cfg : apiConfig) (env : Env)
  (r : Request) (w : World) (videoID userID : UUID) (token : string)
  (video : Video) :
  h ∈ videoHandlers ->
  uuid_Parse env (pathVideoID r) = Some videoID ->
  auth_GetBearerToken env (reqHeader r) = Some token ->
  auth_ValidateJWT env token (jwtSecret cfg) = Some userID ->
  db_GetVideo_fails env = false ->
  db w !! videoID = Some video ->
  uuid_Parse env (uuid_String env userID) ≠ Some (UserID video) ->
  status (run (h cfg env r) w).1 = StatusUnauthorized
  ∧ fs (run (h cfg env r) w).2 = fs w
  ∧ s3 (run (h cfg env r) w).2 = s3 w
  ∧ db (run (h cfg env r) w).2 = db w
  ∧ log (run (h cfg env r) w).2 = log w ++ [EvDbGet videoID].
Proof.
  intros Hh Hid Htok Hjwt Hget Hvid Hown.
  unfold videoHandlers in Hh. each_handler Hh.
  - unfold handlerUploadVideo.
    non_owner_run Hid Htok Hjwt Hget Hvid Hown.
  - unfold Signed.handlerUploadVideo.
    non_owner_run Hid Htok Hjwt Hget Hvid Hown.
  - unfold Flat.handlerUploadVideo.
    non_owner_run Hid Htok Hjwt Hget Hvid Hown.
Qed.

Lemma non_owner_is_refused_in_every_version_witness :
  status (run (Flat.handlerUploadVideo sampleConfig
                 (scenario 8 false false false remuxOk)
                 (sampleRequest "video" "video/mp4" 2))
              sampleWorld).1
  = StatusUnauthorized.
Proof.
  apply (non_owner_is_refused_in_every_version Flat.handlerUploadVideo
           sampleConfig (scenario 8 false false false remuxOk)
           (sampleRequest "video" "video/mp4" 2) sampleWorld
           1%N 8%N "token" sampleVideo);
    try reflexivity.
  - repeat first [apply list_elem_of_here | apply list_elem_of_further].
  - vm_compute. discriminate.
Defined.

(** ** The signing step on every locator *)

Lemma Index_spec s sep before after :
  strings_pkg.Index s sep = Some (before, after) ->
  s = before +:+ String sep after
  ∧ ¬ In sep (list_ascii_of_string before).
Proof.
  revert before after. induction s as [|c s IH]; intros before after H.
  - discriminate H.
  - cbn [strings_pkg.Index] in H.
    destruct (Ascii.eqb_spec c sep) as [->|Hne].
    + injection H as <- <-. split; [reflexivity|]. intros [].
    + destruct (strings_pkg.Index s sep) as [[b a]|] eqn:E; [|discriminate H].
      injection H as <- <-. destruct (IH b a eq_refl) as [-> Hnot].
      split; [reflexivity|]. cbn [list_ascii_of_string].
      intros [Heq|Hin]; [contradiction|]. exact (Hnot Hin).
Qed.

Lemma Index_none s : noComma s -> strings_pkg.Index s "," = None.
Proof.
  unfold noComma. induction s as [|c s IH]; intros H; [reflexivity|].
  cbn [strings_pkg.Index]. cbn [list_ascii_of_string] in H.
  destruct (Ascii.eqb_spec c ",") as [->|_].
  - exfalso. apply H. now left.
  - rewrite IH; [reflexivity|]. intros Hin. apply H. now right.
Qed.

Lemma SplitN_two_parts s :
  s ≠ ""%string ->
  strings_pkg.SplitN s "," 2
  = match strings_pkg.Index s "," with
    | Some (before, after) => [before; after]
    | None => [s]
    end.
Proof.
  intros Hs. unfold strings_pkg.SplitN.
  change (2 =? 0) with false. change (2 <? 0) with false. cbv iota zeta.
  set (n := Z.to_nat _).
  assert (n = 1%nat) as ->.
  { subst n. destruct s as [|c s]; [contradiction|].
    cbn [String.length]. lia. }
  cbn [strings_pkg.splitLoop].
  destruct (strings_pkg.Index s ",") as [[before after]|]; reflexivity.
Qed.

Lemma noComma_append s t : noComma (s +:+ t) <-> noComma s ∧ noComma t.
Proof.
  unfold noComma. rewrite list_of_append. rewrite in_app_iff. tauto.
Qed.

Lemma noComma_EncodeToString src : noComma (base64.EncodeToString src).
Proof.
  unfold noComma, base64.EncodeToString.
  rewrite list_ascii_of_string_of_list_ascii. intros Hin.
  pose proof (Encode_alphabet src) as Hall. rewrite Forall_forall in Hall.
  apply list_elem_of_In, Hall in Hin. vm_compute in Hin. among Hin.
Qed.

Lemma refused_without_comma (env : Env) (video : Video) (url : string)
  (w : World) :
  VideoURL video = Some url -> url ≠ ""%string -> noComma url ->
  Signed.dbVideoToSignedVideo env video w
  = (Continue (video, Some Signed.InvalidFormat), w).
Proof.
  intros Hurl Hne Hno. unfold Signed.dbVideoToSignedVideo. rewrite Hurl.
  apply String.eqb_neq in Hne as Hneb. rewrite Hneb.
  rewrite SplitN_two_parts, Index_none by assumption. reflexivity.
Qed.

(** A locator that is not empty and has no comma is refused by the signing
    step: the error is returned with the record as it was, and the object
    store is not asked for anything. *)
Theorem locator_without_comma_is_refused (env : Env) (video : Video)
  (url : string) (w : World) :
  VideoURL video = Some url -> url ≠ ""%string -> noComma url ->
  Signed.dbVideoToSignedVideo env video w
  = (Continue (video, Some Signed.InvalidFormat), w).
Proof. apply refused_without_comma. Qed.

Lemma locator_without_comma_is_refused_witness :
  Signed.dbVideoToSignedVideo (scenario 7 false false false remuxOk)
    (setVideoURL sampleVideo (Some "https://cdn.example/clip.mp4"%string))
    sampleWorld
  = (Continue
       (setVideoURL sampleVideo (Some "https://cdn.example/clip.mp4"%string),
        Some Signed.InvalidFormat),
     sampleWorld).
Proof.
  apply (locator_without_comma_is_refused
           (scenario 7 false false false remuxOk)
           (setVideoURL sampleVideo (Some "https://cdn.example/clip.mp4"%string))
           "https://cdn.example/clip.mp4" sampleWorld).
  - reflexivity.
  - discriminate.
  - unfold noComma. vm_compute. intuition discriminate.
Defined.

(** Whatever the record, the signing step returns a record and possibly
    an error without ending the request; it touches no file, no object and
    no stored record, asks the object store for at most one URL, changes
    nothing of the record but its video URL, and returns the record as it
    was whenever it returns an error.  When it sets a URL, that URL is the
    one signed for the text before the first comma of the locator as the
    bucket and the text after it as the key, for fifteen minutes. *)
Theorem signing_changes_only_the_url (env : Env) (video : Video) (w : World) :
  ∃ video' err w',
    Signed.dbVideoToSignedVideo env video w = (Continue (video', err), w')
    ∧ fs w' = fs w ∧ s3 w' = s3 w ∧ db w' = db w
    ∧ (log w' = log w ∨ ∃ bucket key, log w' = log w ++ [EvPresign bucket key])
    ∧ video' = setVideoURL video (VideoURL video')
    ∧ (err ≠ None -> video' = video)
    ∧ ∀ url, VideoURL video' = Some url -> err = None ->
        ∃ bucket key,
          VideoURL video = Some (bucket +:+ "," +:+ key)
          ∧ noComma bucket
          ∧ s3_Presign env bucket key Signed.expireTime = Some url.
Proof.
  unfold Signed.dbVideoToSignedVideo. destruct video as [i u t v ti de].
  cbn [VideoURL].
  assert (no_error : None ≠ (None : option Signed.SignError) -> False)
    by (intros H; now apply H).
  destruct v as [url|].
  2:{ eexists _, _, _. split; [reflexivity|]. cbn.
      repeat split; auto; solve [intros H; now apply no_error in H
                                | intros url H; discriminate H]. }
  destruct (String.eqb_spec url "") as [->|Hne].
  { eexists _, _, _. split; [reflexivity|]. cbn.
    repeat split; auto; solve [intros H; now apply no_error in H
                              | intros url H; discriminate H]. }
  rewrite SplitN_two_parts by assumption.
  destruct (strings_pkg.Index url ",") as [[bucket key]|] eqn:E.
  - apply Index_spec in E as [-> Hno].
    unfold mbind, M_bind, bind, Signed.generatePresignedURL.
    destruct (s3_Presign env bucket key Signed.expireTime) as [signed|] eqn:P.
    + eexists _, _, _. split; [reflexivity|]. cbn.
      repeat split; eauto.
      * intros H. now apply no_error in H.
      * intros url [= <-] _. exists bucket, key. repeat split; assumption.
    + eexists _, _, _. split; [reflexivity|]. cbn.
      repeat split; eauto. intros signed _ H. discriminate H.
  - eexists _, _, _. split; [reflexivity|]. cbn.
    repeat split; eauto. intros signed _ H. discriminate H.
Qed.

Lemma noComma_class aspect : aspect ∈ aspectClasses -> noComma aspect.
Proof.
  unfold aspectClasses. intros H.
  repeat (apply elem_of_cons in H as [->|H]);
    [..|now apply elem_of_nil in H];
    unfold noComma; vm_compute; intuition discriminate.
Qed.

Lemma noComma_publicURL cfg aspect randomBytes :
  noComma (s3Bucket cfg) -> noComma (s3Region cfg) ->
  aspect ∈ aspectClasses ->
  noComma (publicURL cfg (objectKeyOf aspect randomBytes)).
Proof.
  intros Hb Hr Ha. unfold publicURL, objectKeyOf.
  repeat (apply noComma_append; split);
    try assumption; try apply noComma_EncodeToString;
    try (now apply noComma_class);
    unfold noComma; vm_compute; intuition discriminate.
Qed.

Lemma publicURL_not_empty cfg key : publicURL cfg key ≠ ""%string.
Proof.
  intros E. apply (f_equal String.length) in E. unfold publicURL in E.
  rewrite length_append in E. cbn [String.length] in E. lia.
Qed.

(** A record as the handler of [handler_upload_video.go] writes it, with
    the public address of the object as its video URL, is refused by the
    signing step of the later version (bucket and region names having no
    comma): that step finds no comma to split at. *)
Theorem public_url_record_cannot_be_signed (cfg : apiConfig) (env : Env)
  (r : Request) (w : World) (video : Video) :
  noComma (s3Bucket cfg) -> noComma (s3Region cfg) ->
  payload (run (handlerUploadVideo cfg env r) w).1 = VideoJSON video ->
  ∀ env' w',
    Signed.dbVideoToSignedVideo env' video w'
    = (Continue (video, Some Signed.InvalidFormat), w').
Proof.
  intros Hb Hr. unfold handlerUploadVideo. unfold_steps. reduce.
  run_all; intros H; try discriminate H.
  all: injection H as <-; intros env' w'.
  all: match goal with
       | Ha : getVideoAspectRatio _ = Ok ?aspect |- _ =>
           pose proof (getVideoAspectRatio_class _ _ Ha) as Hclass
       end.
  all: eapply refused_without_comma;
    [reflexivity|apply publicURL_not_empty|now apply noComma_publicURL].
Qed.

Lemma public_url_record_cannot_be_signed_witness :
  ∃ video,
    payload (run (handlerUploadVideo sampleConfig
                    (scenario 7 false false false remuxOk)
                    (sampleRequest "video" "video/mp4" 2))
                 sampleWorld).1 = VideoJSON video
    ∧ Signed.dbVideoToSignedVideo (scenario 7 false false false remuxOk)
        video sampleWorld
      = (Continue (video, Some Signed.InvalidFormat), sampleWorld).
Proof.
  eexists. split; [vm_compute; reflexivity|].
  apply (public_url_record_cannot_be_signed sampleConfig
           (scenario 7 false false false remuxOk)
           (sampleRequest "video" "video/mp4" 2) sampleWorld).
  - unfold noComma. vm_compute. intuition discriminate.
  - unfold noComma. vm_compute. intuition discriminate.
  - vm_compute. reflexivity.
Defined.

(** When the signed version answers 500 "Failed to generate URL", the
    upload is committed all the same: the object is in the store and the
    record holds its locator. *)
Theorem signing_failure_comes_after_the_commit (cfg : apiConfig) (env : Env)
  (r : Request) (w : World) :
  (run (Signed.handlerUploadVideo cfg env r) w).1
  = errorResponse StatusInternalServerError "Failed to generate URL" ->
  ∃ video key,
    is_Some (s3 (run (Signed.handlerUploadVideo cfg env r) w).2
             !! (s3Bucket cfg, key))
    ∧ db (run (Signed.handlerUploadVideo cfg env r) w).2 !! ID video
      = Some (setVideoURL video (Some (Signed.locatorOf (s3Bucket cfg) key))).
Proof.
  unfold Signed.handlerUploadVideo, Signed.dbVideoToSignedVideo,
    Signed.generatePresignedURL.
  unfold_steps. reduce.
  run_all; intros H; try discriminate H.
  all: eexists _, _; split;
    [apply lookup_insert_is_Some; now left|apply lookup_insert_eq].
Qed.

Lemma signing_failure_comes_after_the_commit_witness :
  ∃ video key,
    db (run (Signed.handlerUploadVideo sampleConfig
               (withoutPresign (scenario 7 false false false remuxOk))
               (sampleRequest "video" "video/mp4" 2))
            sampleWorld).2 !! ID video
    = Some (setVideoURL video
              (Some (Signed.locatorOf (s3Bucket sampleConfig) key))).
Proof.
  destruct (signing_failure_comes_after_the_commit sampleConfig
              (withoutPresign (scenario 7 false false false remuxOk))
              (sampleRequest "video" "video/mp4" 2) sampleWorld)
    as (video & key & _ & H).
  - vm_compute. reflexivity.
  - exists video, key. exact H.
Defined.

(** ** The version with the flat key *)

Lemma fresh_file_removed (files : gmap string (list byte)) path data :
  files !! path = None ->
  delete path (<[path := data]> (<[path := []]> files)) = files.
Proof.
  intros H. rewrite insert_insert_eq. now apply delete_insert_id.
Qed.

(** The version without remux leaves the file system exactly as it found
    it, in every run: the staged file is the only file it creates and it
    is always removed. *)
Theorem flat_upload_restores_the_file_system (cfg : apiConfig) (env : Env)
  (r : Request) (w : World) :
  fs (run (Flat.handlerUploadVideo cfg env r) w).2 = fs w.
Proof.
  unfold Flat.handlerUploadVideo. unfold_steps. reduce.
  run_all; try reflexivity; now apply fresh_file_removed.
Qed.

(** In the version without remux a run answered 200 has stored the bytes
    of the upload unchanged, as video/mp4, under the encoding of its 32
    random bytes followed by ".mp4", and has set the record's video URL to
    the public address of that key. *)
Theorem flat_upload_stores_the_raw_bytes (cfg : apiConfig) (env : Env)
  (r : Request) (w : World) :
  status (run (Flat.handlerUploadVideo cfg env r) w).1 = StatusOK ->
  ∃ form file stream video,
    let key := Flat.objectKeyOf (map stream (seq 0 32)) in
    bodyForm r = Some form
    ∧ FormFileOf form "video" = Some file
    ∧ rand_Read env = Some stream
    ∧ s3 (run (Flat.handlerUploadVideo cfg env r) w).2
      = <[(s3Bucket cfg, key) :=
            {| objBody := partData file; objContentType := "video/mp4" |}]>
          (s3 w)
    ∧ db (run (Flat.handlerUploadVideo cfg env r) w).2
      = <[ID video := setVideoURL video (Some (publicURL cfg key))]> (db w)
    ∧ payload (run (Flat.handlerUploadVideo cfg env r) w).1
      = VideoJSON (setVideoURL video (Some (publicURL cfg key))).
Proof.
  unfold Flat.handlerUploadVideo. unfold_steps. reduce.
  run_all; intros H; try discriminate H.
  all: eexists _, _, _, _; cbv zeta.
  all: split; [reflexivity|split; [eassumption|split; [reflexivity|]]].
  all: rewrite lookup_insert_eq; cbn [default].
  all: split; [reflexivity|split; reflexivity].
Qed.

Lemma flat_upload_stores_the_raw_bytes_witness :
  ∃ form file,
    bodyForm (sampleRequest "video" "video/mp4" 2) = Some form
    ∧ FormFileOf form "video" = Some file.
Proof.
  destruct (flat_upload_stores_the_raw_bytes sampleConfig
              (scenario 7 false false false remuxOk)
              (sampleRequest "video" "video/mp4" 2) sampleWorld)
    as (form & file & stream & video & H1 & H2 & _).
  - vm_compute. reflexivity.
  - exists form, file. split; assumption.
Defined.

(** ** What the file-writing thumbnail handlers leave on disk *)

Ltac thumbnail_file_run :=
  unfold_steps; reduce;
  run_all; intros Hlog Hin; new_events Hlog; subst;
  try solve [among Hin];
  among Hin; simplify_eq;
  eexists _, _;
  (split; [reflexivity|]);
  (split; [eassumption|]);
  (split;
   [first [ left; split; [apply lookup_insert_eq|reflexivity]
          | right; eexists; split; [reflexivity|];
            split; [apply lookup_insert_eq|reflexivity] ]|]);
  intros Hstatus; first [reflexivity | exfalso; apply Hstatus; reflexivity].

Lemma thumbnail_by_id_file_stays (cfg : apiConfig) (env : Env) (r : Request)
  (w : World) (evs : list Event) (path : string) :
  log (run (ThumbnailByID.handlerUploadThumbnail cfg env r) w).2 = log w ++ evs ->
  EvCreate path ∈ evs ->
  ∃ form file,
    bodyForm r = Some form
    ∧ FormFileOf form "thumbnail" = Some file
    ∧ (fs (run (ThumbnailByID.handlerUploadThumbnail cfg env r) w).2 !! path
       = Some (partData file)
       ∧ io_Copy_stops env = None
       ∨ ∃ n,
           io_Copy_stops env = Some n
           ∧ fs (run (ThumbnailByID.handlerUploadThumbnail cfg env r) w).2 !! path
             = Some (take n (partData file))
           ∧ (run (ThumbnailByID.handlerUploadThumbnail cfg env r) w).1
             = errorResponse StatusInternalServerError "Failed to save file")
    ∧ (status (run (ThumbnailByID.handlerUploadThumbnail cfg env r) w).1
       ≠ StatusOK ->
       db (run (ThumbnailByID.handlerUploadThumbnail cfg env r) w).2 = db w).
Proof. unfold ThumbnailByID.handlerUploadThumbnail. thumbnail_file_run. Qed.

Lemma thumbnail_random_file_stays (cfg : apiConfig) (env : Env) (r : Request)
  (w : World) (evs : list Event) (path : string) :
  log (run (ThumbnailRandom.handlerUploadThumbnail cfg env r) w).2
  = log w ++ evs ->
  EvCreate path ∈ evs ->
  ∃ form file,
    bodyForm r = Some form
    ∧ FormFileOf form "thumbnail" = Some file
    ∧ (fs (run (ThumbnailRandom.handlerUploadThumbnail cfg env r) w).2 !! path
       = Some (partData file)
       ∧ io_Copy_stops env = None
       ∨ ∃ n,
           io_Copy_stops env = Some n
           ∧ fs (run (ThumbnailRandom.handlerUploadThumbnail cfg env r) w).2
               !! path
             = Some (take n (partData file))
           ∧ (run (ThumbnailRandom.handlerUploadThumbnail cfg env r) w).1
             = errorResponse StatusInternalServerError "Failed to save file")
    ∧ (status (run (ThumbnailRandom.handlerUploadThumbnail cfg env r) w).1
       ≠ StatusOK ->
       db (run (ThumbnailRandom.handlerUploadThumbnail cfg env r) w).2 = db w).
Proof. unfold ThumbnailRandom.handlerUploadThumbnail. thumbnail_file_run. Qed.

(** In both file-writing thumbnail handlers a file once created is never
    cleaned up: when the run ends it holds all the bytes of the upload, or,
    if the copy broke off, the bytes written until then (the answer is then
    500 "Failed to save file"); and whenever the answer is not 200 - copy
    broken off, store down, video unknown, caller not the owner, update
    failed - the record is as it was although the file is there. *)
Theorem thumbnail_file_is_never_cleaned_up
  (h : apiConfig -> Env -> Request -> M Response) (cfg : apiConfig)
  (env : Env) (r : Request) (w : World) (evs : list Event) (path : string) :
  h ∈ thumbnailHandlers ->
  log (run (h cfg env r) w).2 = log w ++ evs ->
  EvCreate path ∈ evs ->
  ∃ form file,
    bodyForm r = Some form
    ∧ FormFileOf form "thumbnail" = Some file
    ∧ (fs (run (h cfg env r) w).2 !! path = Some (partData file)
       ∧ io_Copy_stops env = None
       ∨ ∃ n,
           io_Copy_stops env = Some n
           ∧ fs (run (h cfg env r) w).2 !! path = Some (take n (partData file))
           ∧ (run (h cfg env r) w).1
             = errorResponse StatusInternalServerError "Failed to save file")
    ∧ (status (run (h cfg env r) w).1 ≠ StatusOK ->
       db (run (h cfg env r) w).2 = db w).
Proof.
  intros Hh. unfold thumbnailHandlers in Hh. each_handler Hh.
  - apply thumbnail_by_id_file_stays.
  - apply thumbnail_random_file_stays.
Qed.

Lemma thumbnail_file_is_never_cleaned_up_witness :
  ∃ form file,
    bodyForm (sampleRequest "thumbnail" "image/png" 2) = Some form
    ∧ FormFileOf form "thumbnail" = Some file.
Proof.
  destruct (thumbnail_file_is_never_cleaned_up
              ThumbnailByID.handlerUploadThumbnail sampleConfig
              (scenario 7 true false false remuxOk)
              (sampleRequest "thumbnail" "image/png" 2) sampleWorld
              (log (run (ThumbnailByID.handlerUploadThumbnail sampleConfig
                           (scenario 7 true false false remuxOk)
                           (sampleRequest "thumbnail" "image/png" 2))
                        sampleWorld).2)
              "/assets/v1.png")
    as (form & file & H1 & H2 & _).
  - apply list_elem_of_here.
  - reflexivity.
  - vm_compute.
    repeat first [apply list_elem_of_here | apply list_elem_of_further].
  - exists form, file. split; assumption.
Defined.

Ltac one_path_run p :=
  unfold_steps; reduce;
  run_all; intros Hlog; new_events Hlog; subst;
  (split; [reflexivity|]);
  (split;
   [ intros Hs; rewrite ?lookup_insert; repeat case_decide; eauto
   | intros Hnot;
     first [ reflexivity
           | rewrite !lookup_insert_ne
               by (intros Heq; apply Hnot; rewrite <- Heq;
                   repeat first [apply list_elem_of_here
                                | apply list_elem_of_further]);
             reflexivity ] ]).

Lemma thumbnail_by_id_touches_one_path cfg env r w evs p :
  log (run (ThumbnailByID.handlerUploadThumbnail cfg env r) w).2 = log w ++ evs ->
  s3 (run (ThumbnailByID.handlerUploadThumbnail cfg env r) w).2 = s3 w
  ∧ (is_Some (fs w !! p) ->
     is_Some (fs (run (ThumbnailByID.handlerUploadThumbnail cfg env r) w).2 !! p))
  ∧ (EvCreate p ∉ evs ->
     fs (run (ThumbnailByID.handlerUploadThumbnail cfg env r) w).2 !! p
     = fs w !! p).
Proof. unfold ThumbnailByID.handlerUploadThumbnail. one_path_run p. Qed.

Lemma thumbnail_random_touches_one_path cfg env r w evs p :
  log (run (ThumbnailRandom.handlerUploadThumbnail cfg env r) w).2
  = log w ++ evs ->
  s3 (run (ThumbnailRandom.handlerUploadThumbnail cfg env r) w).2 = s3 w
  ∧ (is_Some (fs w !! p) ->
     is_Some (fs (run (ThumbnailRandom.handlerUploadThumbnail cfg env r) w).2
              !! p))
  ∧ (EvCreate p ∉ evs ->
     fs (run (ThumbnailRandom.handlerUploadThumbnail cfg env r) w).2 !! p
     = fs w !! p).
Proof. unfold ThumbnailRandom.handlerUploadThumbnail. one_path_run p. Qed.

(** The file-writing thumbnail handlers never remove a file and never
    touch the object store: every file that was there before a run is
    there after it, and a path the run did not create a file at holds what
    it held.  So the thumbnails of earlier uploads stay on disk unless a
    later upload is given the same path. *)
Theorem thumbnail_handlers_never_remove_files
  (h : apiConfig -> Env -> Request -> M Response) (cfg : apiConfig)
  (env : Env) (r : Request) (w : World) (evs : list Event) (p : string) :
  h ∈ thumbnailHandlers ->
  log (run (h cfg env r) w).2 = log w ++ evs ->
  s3 (run (h cfg env r) w).2 = s3 w
  ∧ (is_Some (fs w !! p) -> is_Some (fs (run (h cfg env r) w).2 !! p))
  ∧ (EvCreate p ∉ evs -> fs (run (h cfg env r) w).2 !! p = fs w !! p).
Proof.
  intros Hh. unfold thumbnailHandlers in Hh. each_handler Hh.
  - apply thumbnail_by_id_touches_one_path.
  - apply thumbnail_random_touches_one_path.
Qed.

Lemma thumbnail_handlers_never_remove_files_witness :
  s3 (run (ThumbnailRandom.handlerUploadThumbnail sampleConfig
             (scenario 7 false false false remuxOk)
             (sampleRequest "thumbnail" "image/png" 2))
          sampleWorld).2
  = s3 sampleWorld.
Proof.
  apply (thumbnail_handlers_never_remove_files
           ThumbnailRandom.handlerUploadThumbnail sampleConfig
           (scenario 7 false false false remuxOk)
           (sampleRequest "thumbnail" "image/png" 2) sampleWorld
           (log (run (ThumbnailRandom.handlerUploadThumbnail sampleConfig
                        (scenario 7 false false false remuxOk)
                        (sampleRequest "thumbnail" "image/png" 2))
                     sampleWorld).2)
           "/assets/other.png").
  - apply list_elem_of_further, list_elem_of_here.
  - reflexivity.
Defined.

(** ** Accepted thumbnail uploads *)

Lemma getExtensionFromMIME_extension mimeType ext :
  ThumbnailByID.getExtensionFromMIME mimeType = Some ext ->
  ext ∈ imageExtensions.
Proof.
  unfold ThumbnailByID.getExtensionFromMIME, imageExtensions.
  repeat (destruct (String.eqb mimeType _);
          [intros [= <-];
           repeat first [apply list_elem_of_here | apply list_elem_of_further]|]).
  discriminate.
Qed.

Lemma thumbnail_by_id_success (cfg : apiConfig) (env : Env)
  (r : Request) (w : World) :
  status (run (ThumbnailByID.handlerUploadThumbnail cfg env r) w).1 = StatusOK ->
  ∃ videoID video form file ext,
    let filename := uuid_String env videoID +:+ ext in
    let updated :=
      setThumbnailURL video
        (Some ("http://localhost:" +:+ port cfg +:+ "/assets/" +:+ filename)) in
    uuid_Parse env (pathVideoID r) = Some videoID
    ∧ db w !! videoID = Some video
    ∧ bodyForm r = Some form
    ∧ FormFileOf form "thumbnail" = Some file
    ∧ ThumbnailByID.getExtensionFromMIME (partContentType file) = Some ext
    ∧ ext ∈ imageExtensions
    ∧ fs (run (ThumbnailByID.handlerUploadThumbnail cfg env r) w).2
      = <[filepath_Join env (assetsRoot cfg) filename := partData file]> (fs w)
    ∧ db (run (ThumbnailByID.handlerUploadThumbnail cfg env r) w).2
      = <[ID video := updated]> (db w)
    ∧ payload (run (ThumbnailByID.handlerUploadThumbnail cfg env r) w).1
      = VideoJSON updated.
Proof.
  unfold ThumbnailByID.handlerUploadThumbnail. unfold_steps. reduce.
  run_all; intros H; try discriminate H.
  eexists _, _, _, _, _; cbv zeta.
  split; [reflexivity|split; [eassumption|split; [reflexivity|]]].
  split; [eassumption|split; [eassumption|]].
  split; [eapply getExtensionFromMIME_extension; eassumption|].
  split; [apply insert_insert_eq|split; reflexivity].
Qed.


(** A run of the handler that names the file after the video, answered
    200: the content type of the part is one of the four the handler
    knows, the file system is the old one with the bytes of the upload at
    the path made of the assets directory, the id and the extension, and
    the record stored and answered is the old one with only its thumbnail
    URL set, to the address of that file name under /assets/. *)
Theorem thumbnail_by_id_commits_file_and_record (cfg : apiConfig) (env : Env)
  (r : Request) (w : World) :
  status (run (ThumbnailByID.handlerUploadThumbnail cfg env r) w).1 = StatusOK ->
  ∃ videoID video form file ext,
    let filename := uuid_String env videoID +:+ ext in
    let updated :=
      setThumbnailURL video
        (Some ("http://localhost:" +:+ port cfg +:+ "/assets/" +:+ filename)) in
    uuid_Parse env (pathVideoID r) = Some videoID
    ∧ db w !! videoID = Some video
    ∧ bodyForm r = Some form
    ∧ FormFileOf form "thumbnail" = Some file
    ∧ ThumbnailByID.getExtensionFromMIME (partContentType file) = Some ext
    ∧ ext ∈ imageExtensions
    ∧ fs (run (ThumbnailByID.handlerUploadThumbnail cfg env r) w).2
      = <[filepath_Join env (assetsRoot cfg) filename := partData file]> (fs w)
    ∧ db (run (ThumbnailByID.handlerUploadThumbnail cfg env r) w).2
      = <[ID video := updated]> (db w)
    ∧ payload (run (ThumbnailByID.handlerUploadThumbnail cfg env r) w).1
      = VideoJSON updated.
Proof. apply thumbnail_by_id_success. Qed.

Lemma thumbnail_by_id_commits_file_and_record_witness :
  ∃ videoID video,
    uuid_Parse (scenario 7 false false false remuxOk)
      (pathVideoID (sampleRequest "thumbnail" "image/webp" 2)) = Some videoID
    ∧ db sampleWorld !! videoID = Some video.
Proof.
  destruct (thumbnail_by_id_commits_file_and_record sampleConfig
              (scenario 7 false false false remuxOk)
              (sampleRequest "thumbnail" "image/webp" 2) sampleWorld)
    as (videoID & video & form & file & ext & H1 & H2 & _).
  - vm_compute. reflexivity.
  - exists videoID, video. split; assumption.
Defined.

(** A run of the handler that names the file with random bytes, answered
    200: the media type parsed from the part is image/jpeg or image/png,
    the file name is the 43-character encoding of the 32 bytes drawn
    followed by .jpg or .png accordingly, the file system is the old one
    with the bytes of the upload at that name in the assets directory, and
    the record stored and answered is the old one with only its thumbnail
    URL set. *)
Theorem thumbnail_random_commits_file_and_record (cfg : apiConfig) (env : Env)
  (r : Request) (w : World) :
  status (run (ThumbnailRandom.handlerUploadThumbnail cfg env r) w).1
  = StatusOK ->
  ∃ videoID video form file parsed stream ext,
    let baseName := base64.EncodeToString (map stream (seq 0 32)) in
    let filename := baseName +:+ ext in
    let updated :=
      setThumbnailURL video
        (Some ("http://localhost:" +:+ port cfg +:+ "/assets/" +:+ filename)) in
    uuid_Parse env (pathVideoID r) = Some videoID
    ∧ db w !! videoID = Some video
    ∧ bodyForm r = Some form
    ∧ FormFileOf form "thumbnail" = Some file
    ∧ mime_ParseMediaType env (partContentType file) = Some parsed
    ∧ (parsed = "image/jpeg"%string ∧ ext = ".jpg"%string
       ∨ parsed = "image/png"%string ∧ ext = ".png"%string)
    ∧ rand_Read env = Some stream
    ∧ String.length baseName = 43%nat
    ∧ fs (run (ThumbnailRandom.handlerUploadThumbnail cfg env r) w).2
      = <[filepath_Join env (assetsRoot cfg) filename := partData file]> (fs w)
    ∧ db (run (ThumbnailRandom.handlerUploadThumbnail cfg env r) w).2
      = <[ID video := updated]> (db w)
    ∧ payload (run (ThumbnailRandom.handlerUploadThumbnail cfg env r) w).1
      = VideoJSON updated.
Proof.
  unfold ThumbnailRandom.handlerUploadThumbnail. unfold_steps. reduce.
  run_all; intros H; try discriminate H.
  match goal with
  | Hm : mime_ParseMediaType _ _ = Some ?parsed |- _ =>
      eexists _, _, _, _, parsed, _, (ThumbnailRandom.extensionOf parsed)
  end.
  cbv zeta.
  split; [reflexivity|split; [eassumption|split; [reflexivity|]]].
  split; [eassumption|split; [eassumption|]].
  split.
  { unfold ThumbnailRandom.extensionOf.
    match goal with
    | Hb : negb (String.eqb ?p "image/jpeg") && negb (String.eqb ?p "image/png")
           = false |- _ =>
        destruct (String.eqb_spec p "image/jpeg") as [->|_];
          [left; split; reflexivity|];
        destruct (String.eqb_spec p "image/png") as [->|_];
          [right; split; reflexivity|discriminate Hb]
    end. }
  split; [reflexivity|].
  split; [apply EncodeToString_length; reflexivity|].
  split; [apply insert_insert_eq|split; reflexivity].
Qed.

Lemma thumbnail_random_commits_file_and_record_witness :
  ∃ stream,
    rand_Read (scenario 7 false false false remuxOk) = Some stream.
Proof.
  destruct (thumbnail_random_commits_file_and_record sampleConfig
              (scenario 7 false false false remuxOk)
              (sampleRequest "thumbnail" "image/jpeg" 2) sampleWorld)
    as (videoID & video & form & file & parsed & stream & ext
        & _ & _ & _ & _ & _ & _ & H & _).
  - vm_compute. reflexivity.
  - exists stream. exact H.
Defined.

(** Two uploads for the same video and with the same content type, both
    answered 200 by the handler that names the file after the video: the
    second replaces the first.  After it the file system is the one before
    the first upload with the bytes of the second at the one path; the
    bytes of the first are gone and there is no second file. *)
Theorem thumbnail_by_id_reupload_overwrites (cfg : apiConfig) (env : Env)
  (r1 r2 : Request) (w w1 w2 : World) (resp1 resp2 : Response)
  (form1 form2 : list (string * FormFile)) (file1 file2 : FormFile) :
  run (ThumbnailByID.handlerUploadThumbnail cfg env r1) w = (resp1, w1) ->
  run (ThumbnailByID.handlerUploadThumbnail cfg env r2) w1 = (resp2, w2) ->
  status resp1 = StatusOK -> status resp2 = StatusOK ->
  pathVideoID r1 = pathVideoID r2 ->
  bodyForm r1 = Some form1 -> FormFileOf form1 "thumbnail" = Some file1 ->
  bodyForm r2 = Some form2 -> FormFileOf form2 "thumbnail" = Some file2 ->
  partContentType file1 = partContentType file2 ->
  ∃ path,
    fs w1 = <[path := partData file1]> (fs w)
    ∧ fs w2 = <[path := partData file2]> (fs w).
Proof.
  intros Hrun1 Hrun2 Hok1 Hok2 Hid Hf1 Hp1 Hf2 Hp2 Hct.
  pose proof (thumbnail_by_id_success cfg env r1 w) as H1.
  pose proof (thumbnail_by_id_success cfg env r2 w1) as H2.
  rewrite Hrun1 in H1. rewrite Hrun2 in H2. cbn [fst snd] in H1, H2.
  destruct (H1 Hok1)
    as (id1 & v1 & f1 & p1 & e1 & Hi1 & _ & Hb1 & Hq1 & He1 & _ & Hfs1 & _).
  destruct (H2 Hok2)
    as (id2 & v2 & f2 & p2 & e2 & Hi2 & _ & Hb2 & Hq2 & He2 & _ & Hfs2 & _).
  assert (f1 = form1) as -> by congruence.
  assert (f2 = form2) as -> by congruence.
  assert (p1 = file1) as -> by congruence.
  assert (p2 = file2) as -> by congruence.
  assert (id1 = id2) as -> by congruence.
  assert (e1 = e2) as -> by congruence.
  eexists. split; [exact Hfs1|].
  rewrite Hfs2, Hfs1. apply insert_insert_eq.
Qed.

Lemma thumbnail_by_id_reupload_overwrites_witness :
  ∃ path,
    fs (run (ThumbnailByID.handlerUploadThumbnail sampleConfig
               (scenario 7 false false false remuxOk)
               (sampleUpload "thumbnail" "image/png" [Byte.x07]))
            (run (ThumbnailByID.handlerUploadThumbnail sampleConfig
                    (scenario 7 false false false remuxOk)
                    (sampleRequest "thumbnail" "image/png" 2))
                 sampleWorld).2).2
    = <[path := [Byte.x07]]> (fs sampleWorld).
Proof.
  set (env := scenario 7 false false false remuxOk).
  set (r1 := sampleRequest "thumbnail" "image/png" 2).
  set (r2 := sampleUpload "thumbnail" "image/png" [Byte.x07]).
  set (first := run (ThumbnailByID.handlerUploadThumbnail sampleConfig env r1)
                    sampleWorld).
  set (second := run (ThumbnailByID.handlerUploadThumbnail sampleConfig env r2)
                     first.2).
  destruct (thumbnail_by_id_reupload_overwrites sampleConfig env r1 r2
              sampleWorld first.2 second.2 first.1 second.1
              [("thumbnail"%string,
                {| partContentType := "image/png";
                   partData := [Byte.x00; Byte.x01] |})]
              [("thumbnail"%string,
                {| partContentType := "image/png"; partData := [Byte.x07] |})]
              {| partContentType := "image/png";
                 partData := [Byte.x00; Byte.x01] |}
              {| partContentType := "image/png"; partData := [Byte.x07] |})
    as (path & _ & H);
    try reflexivity.
  exists path. exact H.
Defined.

(** ** The thumbnail handler that keeps the upload in memory *)

(** Every run of the in-memory thumbnail handler leaves files and objects
    alone, and either leaves the map of thumbnails and the record as they
    were, with an answer other than 200, or it has passed every check -
    id, token, form, file part, record found, caller is the owner - before
    it stored the bytes and the content type of the part, whatever that
    type is, under the id of the video.  In that case the answer is 200
    with the record updated to point at /api/thumbnails/<id>, or it is 500
    "Failed to update video" with the record as it was and the entry in the
    map all the same. *)
Theorem memory_thumbnail_is_stored_after_the_ownership_check
  (cfg : apiConfig) (env : Env) (readAllFails : bool) (r : Request)
  (videoThumbnails : gmap N ThumbnailInMemory.thumbnail) (w : World) :
  let '(resp, videoThumbnails', w') :=
    ThumbnailInMemory.handlerUploadThumbnail cfg env readAllFails r
      videoThumbnails w in
  fs w' = fs w ∧ s3 w' = s3 w
  ∧ (videoThumbnails' = videoThumbnails ∧ db w' = db w
     ∧ status resp ≠ StatusOK
     ∨ ∃ videoID video form file token userID,
         let updated :=
           setThumbnailURL video
             (Some ("http://localhost:" +:+ port cfg +:+ "/api/thumbnails/"
                      +:+ uuid_String env videoID)) in
         uuid_Parse env (pathVideoID r) = Some videoID
         ∧ auth_GetBearerToken env (reqHeader r) = Some token
         ∧ auth_ValidateJWT env token (jwtSecret cfg) = Some userID
         ∧ db w !! videoID = Some video
         ∧ uuid_Parse env (uuid_String env userID) = Some (UserID video)
         ∧ bodyForm r = Some form
         ∧ FormFileOf form "thumbnail" = Some file
         ∧ videoThumbnails'
           = <[videoID := {| ThumbnailInMemory.data := partData file;
                             ThumbnailInMemory.mediaType := partContentType file |}]>
               videoThumbnails
         ∧ (resp = {| status := StatusOK; payload := VideoJSON updated |}
            ∧ db w' = <[ID video := updated]> (db w)
            ∨ resp = errorResponse StatusInternalServerError
                       "Failed to update video"
              ∧ db w' = db w)).
Proof.
  unfold ThumbnailInMemory.handlerUploadThumbnail,
    ThumbnailInMemory.beforeStore, ThumbnailInMemory.afterStore,
    ThumbnailInMemory.thumbnailURLOf.
  unfold_steps. reduce.
  run_all; (split; [reflexivity|split; [reflexivity|]]);
    try solve [left; split; [reflexivity|split; [reflexivity|discriminate]]].
  all: right; eexists _, _, _, _, _, _; cbv zeta.
  all: match goal with
       | Hb : negb (N.eqb ?a ?b) = false |- _ =>
           destruct (N.eqb_spec a b) as [<-|]; [|discriminate Hb]
       end.
  all: repeat (split; [first [reflexivity | eassumption]|]).
  all: first [left; split; reflexivity | right; split; reflexivity].
Qed.

(** ** Failure of the prober *)

(** When the upload handler answers 500 "Failed to analyze video" - the
    prober failed, its output could not be read, or it showed no video
    stream with a width and a height - the run has staged the upload, run
    [ffprobe] on it and removed the staged file, and nothing else: [ffmpeg]
    is not run, no random bytes are drawn, no store is called, and files,
    objects and records are exactly as before the request. *)
Theorem failed_probe_stops_the_pipeline (cfg : apiConfig) (env : Env)
  (r : Request) (w : World) :
  (run (handlerUploadVideo cfg env r) w).1
  = errorResponse StatusInternalServerError "Failed to analyze video" ->
  fs (run (handlerUploadVideo cfg env r) w).2 = fs w
  ∧ s3 (run (handlerUploadVideo cfg env r) w).2 = s3 w
  ∧ db (run (handlerUploadVideo cfg env r) w).2 = db w
  ∧ ∃ videoID n tempFile size,
      log (run (handlerUploadVideo cfg env r) w).2
      = log w
        ++ [EvDbGet videoID; EvReadBody n; EvCreateTemp tempFile;
            EvWrite tempFile size;
            EvExec "ffprobe" ["-v"; "error"; "-print_format"; "json";
                              "-show_streams"; tempFile];
            EvRemove tempFile].
Proof.
  unfold handlerUploadVideo. unfold_steps. reduce.
  run_all; intros H; try discriminate H.
  split; [now apply fresh_file_removed|].
  split; [reflexivity|split; [reflexivity|]].
  eexists _, _, _, _. rewrite <- !app_assoc. reflexivity.
Qed.

Lemma failed_probe_stops_the_pipeline_witness :
  fs (run (handlerUploadVideo sampleConfig
             (withAudioOnly (scenario 7 false false false remuxOk))
             (sampleRequest "video" "video/mp4" 2))
          sampleWorld).2
  = fs sampleWorld.
Proof.
  apply (failed_probe_stops_the_pipeline sampleConfig
           (withAudioOnly (scenario 7 false false false remuxOk))
           (sampleRequest "video" "video/mp4" 2) sampleWorld).
  vm_compute. reflexivity.
Defined.
